(** * PDFSectionExtractor: a shallow embedding of [pdf_section_extractor.py]

    The extractor reads a paginated document, parses its table of contents
    into chapters and sections, and then scans the body pages, cutting the
    text at each place where the title of the next section occurs.

    Python strings are sequences of Unicode code points; they are modelled
    as lists of code points.  Python exceptions are modelled by an error
    monad.  Python dictionaries keep insertion order; they are modelled as
    association lists with unique keys. *)

From Stdlib Require Import NArith ZArith Bool Lia String Ascii List.
Import ListNotations.

Set Implicit Arguments.

(** ** Strings as lists of code points *)

Definition char := N.
Definition str := list char.

(** An ASCII literal read as a Python string. *)
Definition u (s : string) : str := map N_of_ascii (list_ascii_of_string s).
Arguments u s%_string.

Definition str_eqb (a b : str) : bool :=
  if list_eq_dec N.eq_dec a b then true else false.

Definition in_range (lo hi c : N) : bool := ((lo <=? c) && (c <=? hi))%N.

(** [str.isspace] on one code point; the same test decides what
    [str.strip], [str.split] and the regex class [\s] treat as whitespace. *)
Definition isspace (c : char) : bool :=
  in_range 9 13 c || in_range 28 31 c || (c =? 32)%N || (c =? 133)%N
  || (c =? 160)%N || (c =? 5760)%N || in_range 8192 8202 c
  || (c =? 8232)%N || (c =? 8233)%N || (c =? 8239)%N || (c =? 8287)%N
  || (c =? 12288)%N.

Definition space : char := 32%N.
Definition newline : char := 10%N.
Definition formfeed : char := 12%N.

(** [string.punctuation] *)
Definition string_punctuation : str :=
  u "!" ++ [34%N] ++ u "#$%&'()*+,-./:;<=>?@[\]^_`{|}~".

(** [str.maketrans(x, y)] for two strings of the same length, and
    [str.translate] with the resulting table. *)
Definition maketrans (x y : str) : list (char * char) := combine x y.

Fixpoint table_get (table : list (char * char)) (c : char) : option char :=
  match table with
  | [] => None
  | (k, v) :: table' => if (k =? c)%N then Some v else table_get table' c
  end.

Definition translate (table : list (char * char)) (text : str) : str :=
  map (fun c => match table_get table c with Some d => d | None => c end) text.

(** [s.lstrip()], [s.rstrip()], [s.strip()] *)
Fixpoint lstrip (s : str) : str :=
  match s with
  | [] => []
  | c :: s' => if isspace c then lstrip s' else s
  end.

Definition rstrip (s : str) : str := rev (lstrip (rev s)).

Definition strip (s : str) : str := rstrip (lstrip s).

(** [re.sub(r'\s+', ' ', s)]: every maximal run of whitespace becomes one
    space; the space is emitted at the last character of the run. *)
Fixpoint re_sub_spaces (s : str) : str :=
  match s with
  | [] => []
  | c :: s' =>
      if isspace c then
        match s' with
        | [] => [space]
        | d :: _ => if isspace d then re_sub_spaces s' else space :: re_sub_spaces s'
        end
      else c :: re_sub_spaces s'
  end.

(** [sub in s] *)
Fixpoint startswith (p s : str) : bool :=
  match p, s with
  | [], _ => true
  | _ :: _, [] => false
  | a :: p', b :: s' => (a =? b)%N && startswith p' s'
  end.

Fixpoint contains (sub s : str) : bool :=
  startswith sub s ||
  match s with
  | [] => false
  | _ :: s' => contains sub s'
  end.

(** [s.split(sep)] for a non-empty separator: [skip] counts the characters
    of a separator occurrence that are still to be passed over, [cur] holds
    the current piece, reversed. *)
Fixpoint split_from (sep : str) (skip : nat) (cur : str) (s : str) : list str :=
  match s with
  | [] => [rev cur]
  | c :: s' =>
      match skip with
      | S k => split_from sep k cur s'
      | O =>
          if startswith sep s
          then rev cur :: split_from sep (length sep - 1) [] s'
          else split_from sep 0 (c :: cur) s'
      end
  end.

Definition split (sep s : str) : list str := split_from sep 0 [] s.

(** [s.split()]: the whitespace-separated words of [s]. *)
Fixpoint split_words_from (cur : str) (s : str) : list str :=
  match s with
  | [] => match cur with [] => [] | _ => [rev cur] end
  | c :: s' =>
      if isspace c
      then match cur with
           | [] => split_words_from [] s'
           | _ => rev cur :: split_words_from [] s'
           end
      else split_words_from (c :: cur) s'
  end.

Definition split_words (s : str) : list str := split_words_from [] s.

(** [sep.join(parts)] *)
Fixpoint join (sep : str) (parts : list str) : str :=
  match parts with
  | [] => []
  | [p] => p
  | p :: rest => p ++ sep ++ join sep rest
  end.

Definition endswith_char (c : char) (s : str) : bool :=
  match rev s with
  | d :: _ => (d =? c)%N
  | [] => false
  end.

(** Every whitespace character of [s] is a single space that is followed,
    if by anything, by a character that is no whitespace: the shape of the
    outputs of [re_sub_spaces]. *)
Fixpoint single_spaced (s : str) : Prop :=
  match s with
  | [] => True
  | c :: s' =>
      (isspace c = true ->
       c = space /\ match s' with [] => True | d :: _ => isspace d = false end)
      /\ single_spaced s'
  end.

(** ** Exceptions *)

(** The exceptions the extractor can meet.  [OSError] stands for
    [IOError] (its alias) and for the subclasses of [OSError] other than
    the two that are named.  The last two derive from [BaseException]
    only; all the others are instances of [Exception]. *)
Inductive exn : Type :=
| KeyError (key : str)
| IndexError
| UnboundLocalError (name : string)
| ValueError
| ReError
| AttributeError
| FileNotFoundError
| PermissionError
| OSError
| OtherException
| KeyboardInterrupt
| SystemExit.

(** [isinstance(e, Exception)] *)
Definition is_exception (e : exn) : bool :=
  match e with
  | KeyboardInterrupt | SystemExit => false
  | _ => true
  end.

Inductive result (A : Type) : Type :=
| Ok (a : A)
| Raise (e : exn).
Arguments Ok {A} a.
Arguments Raise {A} e.

Definition bind {A B : Type} (r : result A) (k : A -> result B) : result B :=
  match r with
  | Ok a => k a
  | Raise e => Raise e
  end.

Notation "x <- r ;; k" := (bind r (fun x => k))
  (at level 61, r at next level, right associativity).
Notation "' p <- r ;; k" := (bind r (fun p => k))
  (at level 61, p pattern, r at next level, right associativity).

(** [l[i]] for a list and a non-negative index *)
Definition list_get {A : Type} (l : list A) (i : nat) : result A :=
  match nth_error l i with
  | Some a => Ok a
  | None => Raise IndexError
  end.

(** ** Dictionaries *)

Module Dict.

Definition t (V : Type) := list (str * V).

Definition empty {V : Type} : t V := [].

Fixpoint get {V : Type} (d : t V) (k : str) : option V :=
  match d with
  | [] => None
  | (k', v) :: d' => if str_eqb k' k then Some v else get d' k
  end.

(** [d[k] = v]: an existing key keeps its place, a new key goes last. *)
Fixpoint set {V : Type} (d : t V) (k : str) (v : V) : t V :=
  match d with
  | [] => [(k, v)]
  | (k', v') :: d' =>
      if str_eqb k' k then (k', v) :: d' else (k', v') :: set d' k v
  end.

(** [d[k]] *)
Definition item {V : Type} (d : t V) (k : str) : result V :=
  match get d k with
  | Some v => Ok v
  | None => Raise (KeyError k)
  end.

Definition values {V : Type} (d : t V) : list V := map snd d.

End Dict.

(** ** Regular expressions

    The two regular expressions of the source, as sequences of items over
    character classes, with the backtracking order of [re]: greedy items
    try the longer match first, the lazy one the shorter. *)

Inductive cls : Type :=
| Chr (c : char)      (* a literal character *)
| SpaceCls            (* \s *)
| DigitCls            (* \d *)
| AlphaCls            (* [A-Za-z] *)
| Dot                 (* . without DOTALL: anything but a newline *)
| DotAll.             (* . under DOTALL *)

Inductive item : Type :=
| One (k : cls)
| Opt (k : cls)       (* k? *)
| Plus (k : cls)      (* k+ *)
| Star (k : cls)      (* k* *)
| LazyStar (k : cls)  (* k*? *)
| AheadFormfeedOrEnd. (* (?=\f|\Z) *)

Definition regex := list item.

(** A match object: [start()] and [end()]. *)
Record Match : Type := { m_start : nat; m_end : nat }.

(** ** ASCII instances of the interpreter's Unicode tables *)

Definition ascii_lower (s : str) : str :=
  map (fun c => if in_range 65 90 c then (c + 32)%N else c) s.

Definition ascii_decimal (c : char) : bool := in_range 48 57 c.

(** ** The extractor

    [str.lower] and the regex class [\d] consult the Unicode character
    database, which is no part of the repository; both are parameters of
    the development.  [lower] is the whole-string operation (the case
    mapping of a capital sigma depends on its neighbours).  The output
    collaborator ([open] for writing followed by [json.dump]) is a parameter
    as well: [fs_write path data] is what the file system answers. *)

(** The document reader's view of a PDF: the raw text of each page
    ([page.get_text("text")], with [page.number] the position in the list)
    and the title string of its metadata ([doc.metadata['title']]). *)
Record Document : Type := { pages : list str; title : str }.

(** State of the loop of [extract_table_of_contents]. *)
Record toc_state : Type := {
  chapters_sections : Dict.t (list str);
  current_chapter : str;
  toc_found : bool;
  last_page : nat
}.

(** State of the loops of [extract_section_content]; [text] is unbound
    until the first page is read. *)
Record scan_state : Type := {
  formatted_data : Dict.t str;
  current_section_index : nat;
  current_section_text : str;
  text : option str;
  page_processed : bool
}.

(** What the top-level operation prints. *)
Inductive diagnostic : Type :=
| File_error_occurred (e : exn)
| Regex_error_occurred (e : exn)
| Data_processing_error_occurred (e : exn)
| Unknown_error_occurred (e : exn).

Inductive event : Type :=
| Printed (d : diagnostic)
| Saved (path : str) (data : Dict.t str).

(** Reading a local variable. *)
Definition local {A : Type} (name : string) (v : option A) : result A :=
  match v with
  | Some a => Ok a
  | None => Raise (UnboundLocalError name)
  end.

Section Extractor.

Variable lower : str -> str.
Variable is_decimal : char -> bool.
Variable fs_write : str -> Dict.t str -> result unit.

(** *** Matching *)

Definition cls_ok (k : cls) (c : char) : bool :=
  match k with
  | Chr d => (d =? c)%N
  | SpaceCls => isspace c
  | DigitCls => is_decimal c
  | AlphaCls => in_range 65 90 c || in_range 97 122 c
  | Dot => negb (c =? newline)%N
  | DotAll => true
  end.

(** [match_items r s]: the length of the match of [r] at the head of [s]
    that backtracking finds first. *)
Fixpoint match_items (r : regex) : str -> option nat :=
  match r with
  | [] => fun _ => Some 0
  | One k :: r' => fun s =>
      match s with
      | c :: s' => if cls_ok k c then option_map S (match_items r' s') else None
      | [] => None
      end
  | Opt k :: r' => fun s =>
      match s with
      | c :: s' =>
          if cls_ok k c then
            match match_items r' s' with
            | Some n => Some (S n)
            | None => match_items r' s
            end
          else match_items r' s
      | [] => match_items r' s
      end
  | Plus k :: r' => fun s =>
      match s with
      | c :: s' =>
          if cls_ok k c then
            option_map S
              ((fix star (t : str) : option nat :=
                  match t with
                  | d :: t' =>
                      if cls_ok k d then
                        match star t' with
                        | Some n => Some (S n)
                        | None => match_items r' t
                        end
                      else match_items r' t
                  | [] => match_items r' t
                  end) s')
          else None
      | [] => None
      end
  | Star k :: r' =>
      fix star (t : str) : option nat :=
        match t with
        | d :: t' =>
            if cls_ok k d then
              match star t' with
              | Some n => Some (S n)
              | None => match_items r' t
              end
            else match_items r' t
        | [] => match_items r' t
        end
  | LazyStar k :: r' =>
      fix lazy (t : str) : option nat :=
        match match_items r' t with
        | Some n => Some n
        | None =>
            match t with
            | d :: t' => if cls_ok k d then option_map S (lazy t') else None
            | [] => None
            end
        end
  | AheadFormfeedOrEnd :: r' => fun s =>
      match s with
      | [] => match_items r' s
      | c :: _ => if (c =? formfeed)%N then match_items r' s else None
      end
  end.

(** [re.match(r, s)] *)
Definition re_match (r : regex) (s : str) : option Match :=
  option_map (fun n => {| m_start := 0; m_end := n |}) (match_items r s).

(** [r.search(s)]: the leftmost position at which [r] matches. *)
Fixpoint search_from (r : regex) (pos : nat) (s : str) : option Match :=
  match match_items r s with
  | Some n => Some {| m_start := pos; m_end := pos + n |}
  | None =>
      match s with
      | [] => None
      | _ :: s' => search_from r (S pos) s'
      end
  end.

Definition re_search (r : regex) (s : str) : option Match := search_from r 0 s.

(** [m.group()] *)
Definition group (s : str) (m : Match) : str :=
  firstn (m_end m - m_start m) (skipn (m_start m) s).

(** *** [clean_text] *)

Definition characters_to_replace : str := string_punctuation ++ [8212%N; 8217%N].

Definition clean_text (text : str) : str :=
  let text :=
    translate (maketrans characters_to_replace
                 (repeat space (length characters_to_replace))) text in
  strip (re_sub_spaces (lower text)).

(** *** The table of contents *)

Definition is_chapter_line (line : str) : bool := contains (u "CHAPTER") line.

(** [^\d+\.\s+[A-Za-z].*] *)
Definition section_line_re : regex :=
  [Plus DigitCls; One (Chr 46%N); Plus SpaceCls; One AlphaCls; Star Dot].

Definition is_section_line (line : str) : bool :=
  match re_match section_line_re (strip line) with
  | Some _ => true
  | None => false
  end.

Definition process_toc_line (line : str) (current_chapter : str)
    (chapters_sections : Dict.t (list str)) : result (str * Dict.t (list str)) :=
  if is_chapter_line line then
    let current_chapter := strip line in
    Ok (current_chapter, Dict.set chapters_sections current_chapter [])
  else if is_section_line line then
    match re_match section_line_re (strip line) with
    | None => Raise AttributeError
    | Some m =>
        let section := group (strip line) m in
        let section_title := clean_text section in
        secs <- Dict.item chapters_sections current_chapter ;;
        Ok (current_chapter,
            Dict.set chapters_sections current_chapter (secs ++ [section_title]))
    end
  else Ok (current_chapter, chapters_sections).

Definition toc_marker : str := u "ARRANGEMENT OF SECTIONS".

(** The loop over the lines of one page. *)
Fixpoint toc_lines (lines : list str) (current_chapter : str)
    (chapters_sections : Dict.t (list str)) : result (str * Dict.t (list str)) :=
  match lines with
  | [] => Ok (current_chapter, chapters_sections)
  | line :: lines' =>
      '(current_chapter, chapters_sections) <-
         process_toc_line line current_chapter chapters_sections ;;
      toc_lines lines' current_chapter chapters_sections
  end.

(** One iteration of the loop over the pages; the boolean tells whether
    the iteration ended in [break]. *)
Definition toc_page (doc : Document) (number : nat) (raw : str) (st : toc_state)
    : result (toc_state * bool) :=
  let text := raw in
  let first_page := false in
  let last_page := number in
  '(text, toc_found, first_page) <-
     (if contains toc_marker text
      then text' <- list_get (split toc_marker text) 1 ;; Ok (text', true, true)
      else Ok (text, toc_found st, first_page)) ;;
  if toc_found then
    if contains (title doc) text && negb first_page then
      Ok ({| chapters_sections := chapters_sections st;
             current_chapter := current_chapter st;
             toc_found := toc_found;
             last_page := last_page |}, true)
    else
      '(current_chapter, chapters_sections) <-
         toc_lines (split [newline] text) (current_chapter st) (chapters_sections st) ;;
      Ok ({| chapters_sections := chapters_sections;
             current_chapter := current_chapter;
             toc_found := toc_found;
             last_page := last_page |}, false)
  else
    Ok ({| chapters_sections := chapters_sections st;
           current_chapter := current_chapter st;
           toc_found := toc_found;
           last_page := last_page |}, false).

Fixpoint toc_pages (doc : Document) (number : nat) (ps : list str) (st : toc_state)
    : result toc_state :=
  match ps with
  | [] => Ok st
  | raw :: ps' =>
      '(st', broke) <- toc_page doc number raw st ;;
      if (broke : bool) then Ok st' else toc_pages doc (S number) ps' st'
  end.

Definition toc_init : toc_state :=
  {| chapters_sections := Dict.empty; current_chapter := [];
     toc_found := false; last_page := 0 |}.

Definition extract_table_of_contents (doc : Document)
    : result (Dict.t (list str) * nat) :=
  st <- toc_pages doc 0 (pages doc) toc_init ;;
  Ok (chapters_sections st, last_page st).

(** The termination test of the loop, read off the document: page [n]
    carries the title, does not carry the marker, and comes after a page
    that does. *)
Definition termination_fires (doc : Document) (n : nat) : bool :=
  match nth_error (pages doc) n with
  | Some raw =>
      existsb (contains toc_marker) (firstn n (pages doc))
      && negb (contains toc_marker raw)
      && contains (title doc) raw
  | None => false
  end.

(** *** The section patterns *)

(** The items of one word of a title.  [f"{word}s?"] is the word followed
    by an optional [s]; in [f"{word}?"] the question mark applies to the
    last character of the word, which is its final [s].  This is the
    pattern for a word without regex operator ([plain_title]), where every
    character stands for itself.  The titles of the table of contents are
    outputs of [clean_text] and carry no character of [string.punctuation],
    hence no operator; for other titles [re.compile] differs, and may raise
    [re.error]. *)
Definition pluralized_word (word : str) : regex :=
  if negb (endswith_char 115%N word)
  then map (fun c => One (Chr c)) word ++ [Opt (Chr 115%N)]
  else map (fun c => One (Chr c)) (removelast word) ++ [Opt (Chr (last word 115%N))].

Fixpoint join_items (sep : regex) (parts : list regex) : regex :=
  match parts with
  | [] => []
  | [p] => p
  | p :: rest => p ++ sep ++ join_items sep rest
  end.

(** [r'\s'.join(pluralized_words) + r"(.*?)(?=\f|\Z)"], compiled with
    [re.DOTALL]; for titles without regex operator, see [pluralized_word]. *)
Definition compile_section_pattern (section : str) : regex :=
  let words := split_words section in
  let pluralized_words := map pluralized_word words in
  join_items [One SpaceCls] pluralized_words ++ [LazyStar DotAll; AheadFormfeedOrEnd].

(** *** The section contents *)

Definition while_cond (sections : list str) (st : scan_state) : bool :=
  (Z.of_nat (current_section_index st) <? Z.of_nat (length sections) - 1)%Z
  && negb (page_processed st).

(** The body of the [while] loop. *)
Definition while_body (sections : list str) (section_patterns : list regex)
    (st : scan_state) : result scan_state :=
  next_section_pattern <- list_get section_patterns (current_section_index st + 1) ;;
  text_ <- local "text" (text st) ;;
  match re_search next_section_pattern text_ with
  | Some next_match =>
      let current_section_text :=
        current_section_text st ++ strip (firstn (m_start next_match) text_) in
      key <- list_get sections (current_section_index st) ;;
      Ok {| formatted_data := Dict.set (formatted_data st) key current_section_text;
            current_section_index := current_section_index st + 1;
            current_section_text := [];
            text := Some (skipn (m_start next_match) text_);
            page_processed := page_processed st |}
  | None =>
      Ok {| formatted_data := formatted_data st;
            current_section_index := current_section_index st;
            current_section_text := current_section_text st ++ text_;
            text := text st;
            page_processed := true |}
  end.

(** The [while] loop; every iteration either ends the page or advances the
    section index, so [S (length sections)] iterations are enough (lemma
    [while_loop_exit]). *)
Fixpoint while_loop (fuel : nat) (sections : list str) (section_patterns : list regex)
    (st : scan_state) : result scan_state :=
  match fuel with
  | O => Ok st
  | S fuel' =>
      if while_cond sections st then
        st' <- while_body sections section_patterns st ;;
        while_loop fuel' sections section_patterns st'
      else Ok st
  end.

(** The head of the [for] body: a fresh page is read and normalised. *)
Definition begin_page (st : scan_state) (raw : str) : scan_state :=
  {| formatted_data := formatted_data st;
     current_section_index := current_section_index st;
     current_section_text := current_section_text st;
     text := Some (clean_text raw);
     page_processed := false |}.

Definition scan_page (sections : list str) (section_patterns : list regex)
    (st : scan_state) (raw : str) : result scan_state :=
  while_loop (S (length sections)) sections section_patterns (begin_page st raw).

(** [for page_num in range(start_page, len(self.doc))] *)
Fixpoint for_pages (doc : Document) (sections : list str) (section_patterns : list regex)
    (page_nums : list nat) (st : scan_state) : result scan_state :=
  match page_nums with
  | [] => Ok st
  | page_num :: rest =>
      page <- list_get (pages doc) page_num ;;
      st' <- scan_page sections section_patterns st page ;;
      for_pages doc sections section_patterns rest st'
  end.

(** The same loop, over the pages themselves (lemma [for_pages_range]). *)
Fixpoint scan_pages (sections : list str) (section_patterns : list regex)
    (raws : list str) (st : scan_state) : result scan_state :=
  match raws with
  | [] => Ok st
  | raw :: rest =>
      st' <- scan_page sections section_patterns st raw ;;
      scan_pages sections section_patterns rest st'
  end.

Definition range (start stop : nat) : list nat := seq start (stop - start).

Definition scan_init : scan_state :=
  {| formatted_data := Dict.empty;
     current_section_index := 0;
     current_section_text := [];
     text := None;
     page_processed := false |}.

(** The last statement evaluates its right-hand side [text] before the
    subscript [sections[current_section_index]]. *)
Definition extract_section_content (doc : Document) (start_page : nat)
    (sections : list str) : result (Dict.t str) :=
  let section_patterns := map compile_section_pattern sections in
  st <- for_pages doc sections section_patterns
          (range start_page (length (pages doc))) scan_init ;;
  text_ <- local "text" (text st) ;;
  key <- list_get sections (current_section_index st) ;;
  Ok (Dict.set (formatted_data st) key text_).

(** One transition of the scanner: a new page is begun, or the [while]
    body runs once under its guard. *)
Inductive scan_step (doc : Document) (sections : list str)
    : scan_state -> scan_state -> Prop :=
| step_page (st : scan_state) (raw : str) :
    In raw (pages doc) -> scan_step doc sections st (begin_page st raw)
| step_while (st st' : scan_state) :
    while_cond sections st = true ->
    while_body sections (map compile_section_pattern sections) st = Ok st' ->
    scan_step doc sections st st'.

(** The states a run of [extract_section_content] goes through. *)
Inductive scan_reach (doc : Document) (sections : list str) : scan_state -> Prop :=
| reach_init : scan_reach doc sections scan_init
| reach_step (st st' : scan_state) :
    scan_reach doc sections st -> scan_step doc sections st st' ->
    scan_reach doc sections st'.

(** *** The top-level operation *)

Definition save_data_to_json (data : Dict.t str) (file_path : str) : result unit :=
  fs_write file_path data.

Definition pipeline (doc : Document) (json_path : str) : result (Dict.t str) :=
  '(chapters_sections, end_page) <- extract_table_of_contents doc ;;
  let sections := concat (Dict.values chapters_sections) in
  formatted_data <- extract_section_content doc end_page sections ;;
  _ <- save_data_to_json formatted_data json_path ;;
  Ok formatted_data.

(** The [except] clauses, in order, for an instance of [Exception]. *)
Definition is_file_error (e : exn) : bool :=
  match e with
  | FileNotFoundError | OSError | PermissionError => true
  | _ => false
  end.

Definition is_re_error (e : exn) : bool :=
  match e with ReError => true | _ => false end.

Definition is_value_or_index_error (e : exn) : bool :=
  match e with ValueError | IndexError => true | _ => false end.

Definition handle (e : exn) : diagnostic :=
  if is_file_error e then File_error_occurred e
  else if is_re_error e then Regex_error_occurred e
  else if is_value_or_index_error e then Data_processing_error_occurred e
  else Unknown_error_occurred e.

(** The outcome of the call (what it returns or raises) and what it did.
    The last clause, [except Exception], takes the instances of
    [Exception] that the clauses before it leave; an exception that is no
    such instance meets no clause and goes on to the caller. *)
Definition extract_sections_to_json (doc : Document) (json_path : str)
    : result unit * list event :=
  match pipeline doc json_path with
  | Ok formatted_data => (Ok tt, [Saved json_path formatted_data])
  | Raise e =>
      if is_exception e then (Ok tt, [Printed (handle e)]) else (Raise e, [])
  end.

End Extractor.

(** ** Sample documents *)

Definition lines (l : list str) : str := join [newline] l.

(** A table of contents on the first page, the body on the next two; the
    title of the document heads the first body page. *)
Definition act_doc : Document :=
  {| pages :=
       [lines [u "ARRANGEMENT OF SECTIONS"; u "CHAPTER I"; u "1. Short title";
               u "2. Interpretation"];
        u "THE ACT 1. Short title This Act may be cited as X.";
        u "2. Interpretation In this Act" ++ [8212%N]];
     title := u "THE ACT" |}.

Definition act_chapters : Dict.t (list str) :=
  [(u "CHAPTER I", [u "1 short title"; u "2 interpretation"])].

(** Two body pages; the title of the second section occurs on neither. *)
Definition carry_doc : Document :=
  {| pages := [u "1. Short title This Act"; u "may be cited as X."];
     title := u "THE ACT" |}.

Definition carry_sections : list str := [u "1 short title"; u "2 interpretation"].

(** Three sections on one page, each body behind its own title. *)
Definition three_page : str :=
  u "1. Short title This Act may be cited as X. 2. Interpretation In this Act"
  ++ [8212%N] ++ u " 3. Extent It extends to the whole of the country.".

Definition three_doc : Document := {| pages := [three_page]; title := u "THE ACT" |}.

Definition three_sections : list str :=
  [u "1 short title"; u "2 interpretation"; u "3 extent"].

(** A file system that accepts every write. *)
Definition fs_accepts (path : str) (data : Dict.t str) : result unit := Ok tt.

(** ** Notions used by the further properties *)

(** The keys of a dictionary, in insertion order ([list(d)]). *)
Definition dict_keys {V : Type} (d : Dict.t V) : list str := map fst d.

(** [v] spells the word [w] of a title with or without a final [s]. *)
Definition spelling (w v : str) : Prop :=
  v = w
  \/ (endswith_char 115%N w = false /\ v = w ++ [115%N])
  \/ w = v ++ [115%N].

(** What the loop of [extract_table_of_contents] keeps true of the
    dictionary and of the current chapter: the keys are distinct, each is a
    trimmed chapter heading, each listed title is an output of
    [clean_text], and the current chapter is the initial empty string or a
    key. *)
Definition toc_invariant (lower : str -> str) (d : Dict.t (list str))
    (chapter : str) : Prop :=
  NoDup (dict_keys d)
  /\ (forall k secs,
         In (k, secs) d ->
         is_chapter_line k = true /\ strip k = k
         /\ Forall (fun s => exists x, s = clean_text lower x) secs)
  /\ (chapter = [] \/ Dict.get d chapter <> None).

(** A table of contents whose first entry is a section line. *)
Definition orphan_doc : Document :=
  {| pages := [lines [u "ARRANGEMENT OF SECTIONS"; u "1. Short title";
                      u "CHAPTER I"]];
     title := u "THE ACT" |}.

(** [act_doc] with other pages behind its first body page. *)
Definition act_doc_longer : Document :=
  {| pages := firstn 2 (pages act_doc) ++ [u "3. Extent"; u "4. Commencement"];
     title := u "THE ACT" |}.

(** ** Further samples *)

(** The characters that [re] reads as operators.  A title that has none
    of them is compiled as [compile_section_pattern] says, every character
    of a word standing for itself; a title that has one is outside the
    model: [re.compile] reads the operator, or raises [re.error]. *)
Definition regex_special : str := u ".^$*+?{}[]\|()".

Definition plain_title (s : str) : bool :=
  forallb (fun c => negb (existsb (N.eqb c) regex_special)) s.



(** Three sections over two pages: the second section begins in the
    middle of the first page and runs on to the second. *)
Definition two_page_doc : Document :=
  {| pages :=
       [u "1. Short title This Act may be cited as X. 2. Interpretation In this Act";
        u "unless the context otherwise requires. 3. Extent It extends to the whole."];
     title := u "THE ACT" |}.

Definition state_of (r : result scan_state) : scan_state :=
  match r with
  | Ok st => st
  | Raise _ => scan_init
  end.

(** The scanner on [two_page_doc] after its first page, and at the head of
    its second page. *)
Definition two_page_after_first : scan_state :=
  state_of (for_pages ascii_lower ascii_decimal two_page_doc three_sections
              (map compile_section_pattern three_sections) [0] scan_init).


(** * Properties *)

(** ** Strings *)

Lemma str_eqb_refl (a : str) : str_eqb a a = true.
Proof. unfold str_eqb. destruct (list_eq_dec N.eq_dec a a); congruence. Qed.

Lemma str_eqb_eq (a b : str) : str_eqb a b = true <-> a = b.
Proof.
  unfold str_eqb. destruct (list_eq_dec N.eq_dec a b); split; congruence.
Qed.

Lemma str_eqb_neq (a b : str) : str_eqb a b = false <-> a <> b.
Proof.
  unfold str_eqb. destruct (list_eq_dec N.eq_dec a b); split; congruence.
Qed.

Lemma isspace_space : isspace space = true.
Proof. reflexivity. Qed.

Lemma table_get_const (l : str) (v c : char) :
  table_get (maketrans l (repeat v (length l))) c
  = if existsb (fun k => (k =? c)%N) l then Some v else None.
Proof.
  unfold maketrans. induction l as [|k l IH]; simpl; [reflexivity|].
  destruct (k =? c)%N; simpl; [reflexivity|exact IH].
Qed.

Lemma translate_spec (l : str) (v : char) (s : str) :
  translate (maketrans l (repeat v (length l))) s
  = map (fun c => if existsb (fun k => (k =? c)%N) l then v else c) s.
Proof.
  unfold translate. apply map_ext. intros c. rewrite table_get_const.
  destruct (existsb (fun k => (k =? c)%N) l); reflexivity.
Qed.

(** *** Stripping *)

Lemma lstrip_app_last (a : str) (c : char) :
  lstrip (a ++ [c])
  = match lstrip a with
    | [] => if isspace c then [] else [c]
    | r => r ++ [c]
    end.
Proof.
  induction a as [|d a IH]; simpl.
  - destruct (isspace c); reflexivity.
  - destruct (isspace d); [exact IH|reflexivity].
Qed.

Lemma rstrip_cons (c : char) (x : str) :
  rstrip (c :: x)
  = match rstrip x with
    | [] => if isspace c then [] else [c]
    | r => c :: r
    end.
Proof.
  unfold rstrip. simpl rev. rewrite lstrip_app_last.
  destruct (lstrip (rev x)) as [|d r] eqn:E; simpl.
  - destruct (isspace c); reflexivity.
  - rewrite rev_app_distr. simpl.
    destruct (rev r ++ [d]) eqn:E'; [destruct (rev r); discriminate|reflexivity].
Qed.

Lemma rstrip_nil : rstrip [] = [].
Proof. reflexivity. Qed.

Lemma rstrip_prefix (x : str) : exists b, x = rstrip x ++ b.
Proof.
  induction x as [|c x [b IH]]; [exists []; reflexivity|].
  rewrite rstrip_cons. destruct (rstrip x) as [|d r] eqn:E.
  - destruct (isspace c).
    + exists (c :: x). reflexivity.
    + exists b. simpl in *. congruence.
  - exists b. simpl in *. congruence.
Qed.

Lemma lstrip_suffix (x : str) : exists a, x = a ++ lstrip x.
Proof.
  induction x as [|c x [a IH]]; [exists []; reflexivity|].
  simpl. destruct (isspace c).
  - exists (c :: a). simpl. congruence.
  - exists []. reflexivity.
Qed.

Lemma rstrip_idem (x : str) : rstrip (rstrip x) = rstrip x.
Proof.
  induction x as [|c x IH]; [reflexivity|].
  rewrite rstrip_cons. destruct (rstrip x) as [|d r] eqn:E.
  - destruct (isspace c) eqn:Ec; [reflexivity|].
    rewrite rstrip_cons, rstrip_nil, Ec. reflexivity.
  - rewrite rstrip_cons, IH. reflexivity.
Qed.

(** A string that does not begin with whitespace. *)
Lemma lstrip_head (s : str) :
  match lstrip s with [] => True | c :: _ => isspace c = false end.
Proof.
  induction s as [|c s IH]; simpl; [exact I|].
  destruct (isspace c) eqn:E; [exact IH|exact E].
Qed.

Lemma lstrip_fixed (s : str) :
  match s with [] => True | c :: _ => isspace c = false end -> lstrip s = s.
Proof. destruct s as [|c s]; simpl; [reflexivity|]. intros ->. reflexivity. Qed.

Lemma lstrip_rstrip_lstrip (s : str) : lstrip (rstrip (lstrip s)) = rstrip (lstrip s).
Proof.
  apply lstrip_fixed. pose proof (lstrip_head s) as H.
  destruct (lstrip s) as [|c x]; [exact I|].
  rewrite rstrip_cons. destruct (rstrip x); [rewrite H; simpl|]; exact H.
Qed.

Lemma strip_idem (s : str) : strip (strip s) = strip s.
Proof. unfold strip. rewrite lstrip_rstrip_lstrip. apply rstrip_idem. Qed.

Lemma Forall_lstrip (Q : char -> Prop) (s : str) : Forall Q s -> Forall Q (lstrip s).
Proof.
  intros H. destruct (lstrip_suffix s) as [a E]. rewrite E in H.
  apply Forall_app in H. tauto.
Qed.

Lemma Forall_rstrip (Q : char -> Prop) (s : str) : Forall Q s -> Forall Q (rstrip s).
Proof.
  intros H. destruct (rstrip_prefix s) as [b E]. rewrite E in H.
  apply Forall_app in H. tauto.
Qed.

Lemma Forall_strip (Q : char -> Prop) (s : str) : Forall Q s -> Forall Q (strip s).
Proof. intros H. apply Forall_rstrip, Forall_lstrip, H. Qed.

(** *** Collapsing whitespace *)

Lemma Forall_re_sub_spaces (Q : char -> Prop) (s : str) :
  Q space -> Forall Q s -> Forall Q (re_sub_spaces s).
Proof.
  intros Hs. induction s as [|c s IH]; intros H; [constructor|].
  inversion H as [|? ? Hc Hr]; subst. specialize (IH Hr).
  simpl. destruct (isspace c).
  - destruct s as [|d s]; [repeat constructor; exact Hs|].
    destruct (isspace d); [exact IH|constructor; [exact Hs|exact IH]].
  - constructor; assumption.
Qed.

Lemma re_sub_spaces_head (d : char) (s : str) :
  isspace d = false -> re_sub_spaces (d :: s) = d :: re_sub_spaces s.
Proof. intros H. simpl. rewrite H. reflexivity. Qed.

Lemma re_sub_spaces_single (s : str) : single_spaced (re_sub_spaces s).
Proof.
  induction s as [|c s IH]; [exact I|].
  cbn [re_sub_spaces]. destruct (isspace c) eqn:Ec.
  - destruct s as [|d s]; [simpl; auto|].
    destruct (isspace d) eqn:Ed; [exact IH|].
    rewrite re_sub_spaces_head in * by exact Ed.
    split; [intros _; split; [reflexivity|exact Ed]|exact IH].
  - split; [congruence|exact IH].
Qed.

Lemma single_spaced_fixed (s : str) : single_spaced s -> re_sub_spaces s = s.
Proof.
  induction s as [|c s IH]; [reflexivity|].
  intros [Hc Hs]. cbn [re_sub_spaces]. rewrite (IH Hs).
  destruct (isspace c) eqn:Ec; [|reflexivity].
  destruct (Hc eq_refl) as [-> Hd].
  destruct s as [|d s]; [reflexivity|]. rewrite Hd. reflexivity.
Qed.

Lemma single_spaced_app_l (a b : str) : single_spaced (a ++ b) -> single_spaced a.
Proof.
  induction a as [|c a IH]; [intros _; exact I|].
  simpl. intros [Hc Hs]. split; [|exact (IH Hs)].
  intros Ec. destruct (Hc Ec) as [-> Hd]. split; [reflexivity|].
  destruct a; [exact I|exact Hd].
Qed.

Lemma single_spaced_app_r (a b : str) : single_spaced (a ++ b) -> single_spaced b.
Proof.
  induction a as [|c a IH]; [auto|]. simpl. intros [_ Hs]. exact (IH Hs).
Qed.

Lemma single_spaced_strip (s : str) : single_spaced s -> single_spaced (strip s).
Proof.
  intros H. unfold strip.
  destruct (lstrip_suffix s) as [a Ea]. rewrite Ea in H.
  apply single_spaced_app_r in H.
  destruct (rstrip_prefix (lstrip s)) as [b Eb]. rewrite Eb in H.
  exact (single_spaced_app_l _ _ H).
Qed.

(** ** [clean_text] *)

Lemma replaced_dec (c : char) :
  existsb (fun k => (k =? c)%N) characters_to_replace = false
  <-> ~ In c characters_to_replace.
Proof.
  split.
  - intros E H.
    assert (existsb (fun k => (k =? c)%N) characters_to_replace = true);
      [|congruence].
    apply existsb_exists. exists c. split; [exact H|apply N.eqb_refl].
  - intros H. destruct (existsb (fun k => (k =? c)%N) characters_to_replace) eqn:E; [|reflexivity].
    apply existsb_exists in E. destruct E as [k [Hk E]].
    apply N.eqb_eq in E. subst. contradiction.
Qed.

Lemma space_not_replaced : ~ In space characters_to_replace.
Proof. apply replaced_dec. reflexivity. Qed.

Lemma translate_clean (s : str) :
  Forall (fun c => ~ In c characters_to_replace)
    (translate (maketrans characters_to_replace
                  (repeat space (length characters_to_replace))) s).
Proof.
  rewrite translate_spec. apply Forall_map, Forall_forall. intros c _.
  destruct (existsb (fun k => (k =? c)%N) characters_to_replace) eqn:E.
  - exact space_not_replaced.
  - apply replaced_dec, E.
Qed.

Lemma translate_fixed (s : str) :
  Forall (fun c => ~ In c characters_to_replace) s ->
  translate (maketrans characters_to_replace
               (repeat space (length characters_to_replace))) s = s.
Proof.
  intros H. rewrite translate_spec. induction H as [|c s Hc _ IH]; [reflexivity|].
  cbn [map]. rewrite IH. apply replaced_dec in Hc. rewrite Hc. reflexivity.
Qed.

Section CleanText.

Variable lower : str -> str.

(** What the proof asks of [str.lower]: a string of characters that
    lowering leaves alone is left alone; lowering yields such characters
    only; the space is one of them; lowering brings in no punctuation. *)
Hypothesis lower_fixed :
  forall s, Forall (fun c => lower [c] = [c]) s -> lower s = s.
Hypothesis lower_lowered :
  forall s, Forall (fun c => lower [c] = [c]) (lower s).
Hypothesis lower_space : lower [space] = [space].
Hypothesis lower_punctuation :
  forall s, Forall (fun c => ~ In c characters_to_replace) s ->
            Forall (fun c => ~ In c characters_to_replace) (lower s).

Lemma clean_text_no_punctuation (x : str) :
  Forall (fun c => ~ In c characters_to_replace) (clean_text lower x).
Proof.
  unfold clean_text. apply Forall_strip, Forall_re_sub_spaces.
  - exact space_not_replaced.
  - apply lower_punctuation, translate_clean.
Qed.

Lemma clean_text_lowered (x : str) :
  Forall (fun c => lower [c] = [c]) (clean_text lower x).
Proof.
  unfold clean_text. apply Forall_strip, Forall_re_sub_spaces.
  - exact lower_space.
  - apply lower_lowered.
Qed.

Lemma clean_text_single_spaced (x : str) : single_spaced (clean_text lower x).
Proof. unfold clean_text. apply single_spaced_strip, re_sub_spaces_single. Qed.

(** C7: [clean_text] is idempotent, and it maps the empty string to the
    empty string. *)
Theorem clean_text_idempotent :
  (forall x, clean_text lower (clean_text lower x) = clean_text lower x)
  /\ clean_text lower [] = [].
Proof.
  split.
  - intros x. unfold clean_text at 1.
    rewrite (translate_fixed (clean_text_no_punctuation x)).
    rewrite (lower_fixed (clean_text_lowered x)).
    rewrite (single_spaced_fixed _ (clean_text_single_spaced x)).
    unfold clean_text. apply strip_idem.
  - unfold clean_text. simpl. rewrite (lower_fixed (Forall_nil _)). reflexivity.
Qed.

End CleanText.

(** *** [ascii_lower] meets the requirements *)

Lemma ascii_lower_fixed (s : str) :
  Forall (fun c => ascii_lower [c] = [c]) s -> ascii_lower s = s.
Proof.
  induction 1 as [|c s Hc _ IH]; [reflexivity|].
  unfold ascii_lower in *. cbn [map] in *. rewrite IH.
  injection Hc as E. f_equal. exact E.
Qed.

Lemma ascii_lower_lowered (s : str) :
  Forall (fun c => ascii_lower [c] = [c]) (ascii_lower s).
Proof.
  unfold ascii_lower. apply Forall_map, Forall_forall. intros c _. simpl.
  unfold in_range. f_equal.
  destruct (65 <=? c)%N eqn:E1; destruct (c <=? 90)%N eqn:E2; simpl;
    try (rewrite E1, ?E2; reflexivity).
  apply N.leb_le in E1, E2.
  destruct (65 <=? c + 32)%N eqn:E3; destruct (c + 32 <=? 90)%N eqn:E4; simpl;
    try reflexivity.
  apply N.leb_le in E4. lia.
Qed.

Lemma ascii_lower_space : ascii_lower [space] = [space].
Proof. reflexivity. Qed.

Lemma ascii_lower_punctuation (s : str) :
  Forall (fun c => ~ In c characters_to_replace) s ->
  Forall (fun c => ~ In c characters_to_replace) (ascii_lower s).
Proof.
  intros H. unfold ascii_lower. apply Forall_map.
  apply (Forall_impl _ (P := fun c => ~ In c characters_to_replace)); [|exact H].
  intros c Hc. unfold in_range.
  destruct (65 <=? c)%N eqn:E1; destruct (c <=? 90)%N eqn:E2; simpl; try exact Hc.
  apply N.leb_le in E1, E2. apply replaced_dec.
  assert (exists k, (k < 26)%nat /\ c = (65 + N.of_nat k)%N) as [k [Hk ->]].
  { exists (N.to_nat (c - 65)). split; lia. }
  do 26 (destruct k as [|k]; [reflexivity|]). lia.
Qed.

(** The idempotence of [clean_text] with [ascii_lower] for [str.lower]. *)
Lemma clean_text_idempotent_witness :
  (forall x, clean_text ascii_lower (clean_text ascii_lower x)
             = clean_text ascii_lower x)
  /\ clean_text ascii_lower [] = [].
Proof.
  exact (@clean_text_idempotent ascii_lower ascii_lower_fixed ascii_lower_lowered
           ascii_lower_space ascii_lower_punctuation).
Defined.

(** ** Dictionaries *)

Lemma get_set_same (V : Type) (d : Dict.t V) (k : str) (v : V) :
  Dict.get (Dict.set d k v) k = Some v.
Proof.
  induction d as [|[k' v'] d IH]; simpl.
  - rewrite str_eqb_refl. reflexivity.
  - destruct (str_eqb k' k) eqn:E; simpl; rewrite E; [reflexivity|exact IH].
Qed.

Lemma get_set_other (V : Type) (d : Dict.t V) (k k' : str) (v : V) :
  k <> k' -> Dict.get (Dict.set d k v) k' = Dict.get d k'.
Proof.
  intros Hk. induction d as [|[k0 v0] d IH]; simpl.
  - apply str_eqb_neq in Hk. rewrite Hk. reflexivity.
  - destruct (str_eqb k0 k) eqn:E; simpl.
    + apply str_eqb_eq in E. subst k0. apply str_eqb_neq in Hk. rewrite Hk.
      reflexivity.
    + destruct (str_eqb k0 k'); [reflexivity|exact IH].
Qed.

(** ** The section contents *)

Section Scanner.

Variable lower : str -> str.
Variable is_decimal : char -> bool.

Local Notation "'clean'" := (clean_text lower).

Lemma while_cond_true (sections : list str) (st : scan_state) :
  while_cond sections st = true <->
  current_section_index st + 1 < length sections /\ page_processed st = false.
Proof.
  unfold while_cond. rewrite andb_true_iff, Z.ltb_lt, negb_true_iff.
  split; intros [H1 H2]; (split; [lia|exact H2]).
Qed.

Lemma while_cond_false (sections : list str) (st : scan_state) :
  while_cond sections st = false <->
  length sections <= current_section_index st + 1 \/ page_processed st = true.
Proof.
  unfold while_cond. rewrite andb_false_iff, Z.ltb_ge, negb_false_iff.
  split; (intros [H|H]; [left; lia|right; exact H]).
Qed.

Lemma list_get_lt (A : Type) (l : list A) (i : nat) :
  i < length l -> exists a, nth_error l i = Some a /\ list_get l i = Ok a.
Proof.
  intros H. unfold list_get. destruct (nth_error l i) as [a|] eqn:E.
  - exists a. split; reflexivity.
  - apply nth_error_None in E. lia.
Qed.

(** Under its guard the body of the [while] loop reads a bound [text] and
    raises nothing; it either advances the index by one or ends the page. *)
Lemma while_body_guarded (sections : list str) (st : scan_state) (t : str) :
  while_cond sections st = true -> text st = Some t ->
  exists key nxt,
    nth_error sections (current_section_index st) = Some key
    /\ nth_error sections (current_section_index st + 1) = Some nxt
    /\ while_body is_decimal sections (map compile_section_pattern sections) st
       = match re_search is_decimal (compile_section_pattern nxt) t with
         | Some next_match =>
             Ok {| formatted_data :=
                     Dict.set (formatted_data st) key
                       (current_section_text st
                        ++ strip (firstn (m_start next_match) t));
                   current_section_index := current_section_index st + 1;
                   current_section_text := [];
                   text := Some (skipn (m_start next_match) t);
                   page_processed := page_processed st |}
         | None =>
             Ok {| formatted_data := formatted_data st;
                   current_section_index := current_section_index st;
                   current_section_text := current_section_text st ++ t;
                   text := text st;
                   page_processed := true |}
         end.
Proof.
  intros Hc Ht. apply while_cond_true in Hc. destruct Hc as [Hi _].
  destruct (@list_get_lt _ sections (current_section_index st)) as [key [Hk Hk']];
    [lia|].
  destruct (@list_get_lt _ sections (current_section_index st + 1)) as [nxt [Hn _]];
    [lia|].
  exists key, nxt. repeat split; try assumption.
  unfold while_body, list_get. rewrite nth_error_map, Hn, Ht. simpl.
  destruct (re_search is_decimal (compile_section_pattern nxt) t);
    [|reflexivity].
  fold (list_get sections (current_section_index st)). rewrite Hk'. reflexivity.
Qed.

(** The [while] loop leaves with its guard false: the fuel of [scan_page]
    is never used up. *)
Lemma while_loop_exit (sections : list str) (fuel : nat) :
  forall st st',
    page_processed st = true \/ length sections <= fuel + current_section_index st ->
    while_loop is_decimal fuel sections (map compile_section_pattern sections) st = Ok st' ->
    while_cond sections st' = false.
Proof.
  induction fuel as [|fuel IH]; intros st st' Hf; simpl.
  - intros E. injection E as <-. apply while_cond_false.
    destruct Hf as [H|H]; [right; exact H|left; lia].
  - destruct (while_cond sections st) eqn:Hc; [|congruence].
    destruct (while_body is_decimal sections (map compile_section_pattern sections) st)
      as [st1|e] eqn:Hb; simpl; [|discriminate].
    apply IH. apply while_cond_true in Hc. destruct Hc as [Hi Hp].
    destruct Hf as [Hf|Hf]; [congruence|].
    unfold while_body in Hb.
    destruct (list_get (map compile_section_pattern sections) (current_section_index st + 1));
      simpl in Hb; [|discriminate].
    destruct (text st); simpl in Hb; [|discriminate].
    destruct (re_search is_decimal a s).
    + destruct (list_get sections (current_section_index st)); simpl in Hb;
        [|discriminate].
      injection Hb as <-. simpl. right. lia.
    + injection Hb as <-. simpl. left. reflexivity.
Qed.

Lemma scan_page_exit (sections : list str) (st st' : scan_state) (raw : str) :
  scan_page lower is_decimal sections (map compile_section_pattern sections) st raw = Ok st' ->
  while_cond sections st' = false.
Proof.
  unfold scan_page. apply while_loop_exit. right. simpl. lia.
Qed.

(** The loop over the page numbers is the loop over the pages. *)
Lemma skipn_nth_error (A : Type) (l : list A) (i : nat) :
  i < length l ->
  exists a, nth_error l i = Some a /\ skipn i l = a :: skipn (S i) l.
Proof.
  revert i. induction l as [|x l IH]; intros i H; simpl in H; [lia|].
  destruct i as [|i].
  - exists x. split; reflexivity.
  - destruct (IH i) as [a [E1 E2]]; [lia|]. exists a. split; assumption.
Qed.

Lemma for_pages_seq (doc : Document) (sections : list str) (ps : list regex)
    (n : nat) :
  forall start st,
    start + n = length (pages doc) ->
    for_pages lower is_decimal doc sections ps (seq start n) st
    = scan_pages lower is_decimal sections ps (skipn start (pages doc)) st.
Proof.
  induction n as [|n IH]; intros start st H; simpl.
  - rewrite skipn_all2 by lia. reflexivity.
  - destruct (@skipn_nth_error _ (pages doc) start) as [a [E1 E2]]; [lia|].
    rewrite E2. simpl. unfold list_get at 1. rewrite E1. simpl.
    destruct (scan_page lower is_decimal sections ps st a); simpl; [|reflexivity].
    apply IH. lia.
Qed.

Lemma for_pages_range (doc : Document) (sections : list str) (ps : list regex)
    (start : nat) (st : scan_state) :
  for_pages lower is_decimal doc sections ps (range start (length (pages doc))) st
  = scan_pages lower is_decimal sections ps (skipn start (pages doc)) st.
Proof.
  unfold range. destruct (Nat.le_gt_cases start (length (pages doc))) as [H|H].
  - apply for_pages_seq. lia.
  - replace (length (pages doc) - start) with 0 by lia.
    rewrite skipn_all2 by lia. reflexivity.
Qed.

Lemma while_loop_done (sections : list str) (ps : list regex) (fuel : nat)
    (st : scan_state) :
  while_cond sections st = false ->
  while_loop is_decimal fuel sections ps st = Ok st.
Proof. intros H. destruct fuel; simpl; [|rewrite H]; reflexivity. Qed.

Lemma while_body_index (sections : list str) (st st' : scan_state) :
  while_cond sections st = true ->
  while_body is_decimal sections (map compile_section_pattern sections) st = Ok st' ->
  (current_section_index st' = current_section_index st
   /\ page_processed st' = true)
  \/ (current_section_index st' = current_section_index st + 1
      /\ current_section_index st + 1 < length sections).
Proof.
  intros Hc Hb. apply while_cond_true in Hc. destruct Hc as [Hi Hp].
  unfold while_body in Hb.
  destruct (list_get (map compile_section_pattern sections)
              (current_section_index st + 1)) as [r|]; simpl in Hb; [|discriminate].
  destruct (text st) as [t|]; simpl in Hb; [|discriminate].
  destruct (re_search is_decimal r t).
  - destruct (list_get sections (current_section_index st)); simpl in Hb;
      [|discriminate].
    injection Hb as <-. simpl. right. split; [reflexivity|exact Hi].
  - injection Hb as <-. simpl. left. split; reflexivity.
Qed.

Lemma scan_step_index (doc : Document) (sections : list str) (st st' : scan_state) :
  scan_step lower is_decimal doc sections st st' ->
  current_section_index st' = current_section_index st
  \/ (current_section_index st' = current_section_index st + 1
      /\ current_section_index st + 1 < length sections).
Proof.
  intros H. destruct H as [st raw _|st st' Hc Hb].
  - left. reflexivity.
  - destruct (@while_body_index sections st st' Hc Hb) as [[H _]|H]; [left; exact H|right; exact H].
Qed.

Lemma scan_reach_bound (doc : Document) (sections : list str) (st : scan_state) :
  scan_reach lower is_decimal doc sections st ->
  current_section_index st <= length sections - 1.
Proof.
  induction 1 as [|st st' _ IH Hs]; [simpl; lia|].
  destruct (scan_step_index Hs) as [H|[H1 H2]]; lia.
Qed.

(** The states that the loops of [extract_section_content] go through are
    those of [scan_reach]. *)
Lemma while_loop_reach (doc : Document) (sections : list str) (fuel : nat) :
  forall st st',
    scan_reach lower is_decimal doc sections st ->
    while_loop is_decimal fuel sections (map compile_section_pattern sections) st
    = Ok st' ->
    scan_reach lower is_decimal doc sections st'.
Proof.
  induction fuel as [|fuel IH]; intros st st' Hr; simpl.
  - intros E. injection E as <-. exact Hr.
  - destruct (while_cond sections st) eqn:Hc.
    + destruct (while_body is_decimal sections
                  (map compile_section_pattern sections) st) as [st1|] eqn:Hb;
        simpl; [|discriminate].
      apply IH. apply (reach_step Hr). apply step_while; assumption.
    + intros E. injection E as <-. exact Hr.
Qed.

Lemma scan_pages_reach (doc : Document) (sections : list str) (raws : list str) :
  incl raws (pages doc) ->
  forall st st',
    scan_reach lower is_decimal doc sections st ->
    scan_pages lower is_decimal sections (map compile_section_pattern sections)
      raws st = Ok st' ->
    scan_reach lower is_decimal doc sections st'.
Proof.
  induction raws as [|raw raws IH]; intros Hi st st' Hr; simpl.
  - intros E. injection E as <-. exact Hr.
  - destruct (scan_page lower is_decimal sections
                (map compile_section_pattern sections) st raw) as [st1|] eqn:Hp;
      simpl; [|discriminate].
    assert (Hr1 : scan_reach lower is_decimal doc sections st1).
    { unfold scan_page in Hp.
      apply (@while_loop_reach doc sections (S (length sections))
               (begin_page lower st raw)); [|exact Hp].
      apply (reach_step Hr). apply step_page. apply Hi. left. reflexivity. }
    apply IH; [intros x Hx; apply Hi; right; exact Hx|exact Hr1].
Qed.

Lemma for_pages_reach (doc : Document) (sections : list str) (start : nat)
    (st : scan_state) :
  for_pages lower is_decimal doc sections (map compile_section_pattern sections)
    (range start (length (pages doc))) scan_init = Ok st ->
  scan_reach lower is_decimal doc sections st.
Proof.
  rewrite for_pages_range. apply scan_pages_reach; [|apply reach_init].
  intros x Hx. rewrite <- (firstn_skipn start (pages doc)).
  apply in_or_app. right. exact Hx.
Qed.

(** With [text] bound the loops raise nothing. *)
Lemma while_loop_ok (sections : list str) (fuel : nat) :
  forall st t,
    text st = Some t ->
    exists st' t',
      while_loop is_decimal fuel sections (map compile_section_pattern sections) st
      = Ok st' /\ text st' = Some t'.
Proof.
  induction fuel as [|fuel IH]; intros st t Ht; simpl.
  - exists st, t. split; [reflexivity|exact Ht].
  - destruct (while_cond sections st) eqn:Hc.
    + destruct (@while_body_guarded sections st t Hc Ht) as [key [nxt [_ [_ Hb]]]].
      rewrite Hb.
      destruct (re_search is_decimal (compile_section_pattern nxt) t) as [m|];
        simpl; eapply IH; simpl; [reflexivity|exact Ht].
    + exists st, t. split; [reflexivity|exact Ht].
Qed.

Lemma scan_pages_ok (sections : list str) (raws : list str) :
  forall st,
    raws <> [] ->
    exists st' t',
      scan_pages lower is_decimal sections (map compile_section_pattern sections)
        raws st = Ok st' /\ text st' = Some t'.
Proof.
  induction raws as [|raw raws IH]; intros st Hne; [congruence|].
  simpl. unfold scan_page.
  destruct (@while_loop_ok sections (S (length sections)) (begin_page lower st raw)
              (clean raw) eq_refl) as [st1 [t1 [E1 Ht1]]].
  rewrite E1. simpl. destruct raws as [|raw' raws'].
  - exists st1, t1. split; [reflexivity|exact Ht1].
  - apply IH. discriminate.
Qed.

(** On a non-empty section list, from a start page inside the document,
    [extract_section_content] returns a mapping. *)
Lemma extract_section_content_returns (doc : Document) (start_page : nat)
    (sections : list str) :
  sections <> [] -> start_page < length (pages doc) ->
  exists d, extract_section_content lower is_decimal doc start_page sections = Ok d.
Proof.
  intros Hs Hp. unfold extract_section_content. rewrite for_pages_range.
  destruct (@scan_pages_ok sections (skipn start_page (pages doc)) scan_init)
    as [st [t [E Ht]]].
  { destruct (@skipn_nth_error _ (pages doc) start_page Hp) as [a [_ E]].
    rewrite E. discriminate. }
  rewrite E. simpl. rewrite Ht. simpl.
  assert (Hr : scan_reach lower is_decimal doc sections st).
  { apply for_pages_reach with (start := start_page). rewrite for_pages_range.
    exact E. }
  apply scan_reach_bound in Hr.
  destruct (@list_get_lt _ sections (current_section_index st)) as [key [_ Hk]].
  { destruct sections; [congruence|simpl in *; lia]. }
  rewrite Hk. simpl. eexists. reflexivity.
Qed.



(** After a page the variable [text] holds a tail of the normalised text
    of that page, and the entry written after the loop is such a tail of
    the last page read. *)
Lemma while_loop_text (sections : list str) (fuel : nat) :
  forall st st' t,
    text st = Some t ->
    while_loop is_decimal fuel sections (map compile_section_pattern sections) st
    = Ok st' ->
    exists k, text st' = Some (skipn k t).
Proof.
  induction fuel as [|fuel IH]; intros st st' t Ht; simpl.
  - intros E. injection E as <-. exists 0. exact Ht.
  - destruct (while_cond sections st) eqn:Hc.
    + destruct (@while_body_guarded sections st t Hc Ht) as [key [nxt [_ [_ Hb]]]].
      rewrite Hb.
      destruct (re_search is_decimal (compile_section_pattern nxt) t) as [m|];
        simpl; intros E.
      * apply IH with (t := skipn (m_start m) t) in E; [|reflexivity].
        destruct E as [k Hk].
        exists (k + m_start m). rewrite Hk, skipn_skipn. reflexivity.
      * apply IH with (t := t) in E; [exact E|exact Ht].
    + intros E. injection E as <-. exists 0. exact Ht.
Qed.

Lemma scan_pages_text (sections : list str) (raws : list str) (raw : str) :
  forall st st',
    scan_pages lower is_decimal sections (map compile_section_pattern sections)
      (raws ++ [raw]) st = Ok st' ->
    exists k, text st' = Some (skipn k (clean raw)).
Proof.
  induction raws as [|r raws IH]; intros st st'; simpl.
  - unfold scan_page.
    destruct (while_loop is_decimal (S (length sections)) sections
                (map compile_section_pattern sections) (begin_page lower st raw))
      as [st1|] eqn:E; simpl; [|discriminate].
    intros E'. injection E' as <-.
    apply while_loop_text with (t := clean raw) in E; [exact E|reflexivity].
  - destruct (scan_page lower is_decimal sections
                (map compile_section_pattern sections) st r); simpl;
      [apply IH|discriminate].
Qed.

Lemma final_entry_within_last_page (doc : Document) (start_page : nat)
    (sections : list str) (data : Dict.t str) :
  start_page < length (pages doc) ->
  extract_section_content lower is_decimal doc start_page sections = Ok data ->
  exists key k,
    Dict.get data key = Some (skipn k (clean (last (pages doc) []))).
Proof.
  intros Hp. unfold extract_section_content. rewrite for_pages_range.
  destruct (@exists_last _ (skipn start_page (pages doc))) as [raws [raw E]].
  { destruct (@skipn_nth_error _ (pages doc) start_page Hp) as [a [_ E]].
    rewrite E. discriminate. }
  assert (Hl : last (pages doc) [] = raw).
  { rewrite <- (firstn_skipn start_page (pages doc)), E, app_assoc.
    apply last_last. }
  rewrite E, Hl.
  destruct (scan_pages lower is_decimal sections
              (map compile_section_pattern sections) (raws ++ [raw]) scan_init)
    as [st|] eqn:Es; simpl; [|discriminate].
  apply scan_pages_text in Es. destruct Es as [k Hk]. rewrite Hk. simpl.
  destruct (list_get sections (current_section_index st)) as [key|]; simpl;
    [|discriminate].
  intros E'. injection E' as <-. exists key, k. apply get_set_same.
Qed.

Lemma firstn_length_app (A : Type) (a b : list A) : firstn (length a) (a ++ b) = a.
Proof. induction a as [|x a IH]; simpl; [destruct b|rewrite IH]; reflexivity. Qed.

Lemma skipn_length_app (A : Type) (a b : list A) : skipn (length a) (a ++ b) = b.
Proof. induction a as [|x a IH]; simpl; [reflexivity|exact IH]. Qed.

(** An iteration of the [while] loop that finds the next title. *)
Lemma while_loop_found (sections : list str) (fuel : nat) (st : scan_state)
    (t key nxt : str) (m : Match) :
  nth_error sections (current_section_index st) = Some key ->
  nth_error sections (current_section_index st + 1) = Some nxt ->
  page_processed st = false ->
  text st = Some t ->
  re_search is_decimal (compile_section_pattern nxt) t = Some m ->
  while_loop is_decimal (S fuel) sections (map compile_section_pattern sections) st
  = while_loop is_decimal fuel sections (map compile_section_pattern sections)
      {| formatted_data :=
           Dict.set (formatted_data st) key
             (current_section_text st ++ strip (firstn (m_start m) t));
         current_section_index := current_section_index st + 1;
         current_section_text := [];
         text := Some (skipn (m_start m) t);
         page_processed := false |}.
Proof.
  intros Hk Hn Hp Ht Hm.
  assert (Hc : while_cond sections st = true).
  { apply while_cond_true. split; [|exact Hp]. apply nth_error_Some. congruence. }
  destruct (@while_body_guarded sections st t Hc Ht) as [key' [nxt' [Hk' [Hn' Hb]]]].
  rewrite Hk in Hk'. rewrite Hn in Hn'. injection Hk' as <-. injection Hn' as <-.
  rewrite Hm, Hp in Hb. cbn [while_loop]. rewrite Hc, Hb. reflexivity.
Qed.

(** How a page leaves the scanner when the last search on it fails: [text]
    is the rest of the page from the last title found on it (the whole
    page when none was found), and that rest is what went to the
    accumulator. *)
Lemma while_loop_remainder (sections : list str) (t0 acc0 : str) (idx0 : nat)
    (fuel : nat) :
  forall st st' k,
    text st = Some (skipn k t0) ->
    page_processed st = false ->
    idx0 <= current_section_index st ->
    (current_section_index st = idx0 -> k = 0 /\ current_section_text st = acc0) ->
    (current_section_index st <> idx0 -> current_section_text st = []) ->
    while_loop is_decimal fuel sections (map compile_section_pattern sections) st
    = Ok st' ->
    page_processed st' = true ->
    exists k',
      text st' = Some (skipn k' t0)
      /\ (current_section_index st' = idx0 ->
          k' = 0 /\ current_section_text st' = acc0 ++ t0)
      /\ (current_section_index st' <> idx0 ->
          current_section_text st' = skipn k' t0)
      /\ (forall nxt,
             nth_error sections (current_section_index st' + 1) = Some nxt ->
             re_search is_decimal (compile_section_pattern nxt) (skipn k' t0)
             = None).
Proof.
  induction fuel as [|fuel IH]; intros st st' k Ht Hp Hi H0 H1; simpl.
  - intros E Hp'. injection E as <-. congruence.
  - destruct (while_cond sections st) eqn:Hc;
      [|intros E Hp'; injection E as <-; congruence].
    destruct (@while_body_guarded sections st (skipn k t0) Hc Ht)
      as [key [nxt [Hk [Hn Hb]]]].
    rewrite Hb.
    destruct (re_search is_decimal (compile_section_pattern nxt) (skipn k t0))
      as [m|] eqn:Es; simpl; intros E Hp'.
    + apply IH with (k := m_start m + k) in E; try assumption; simpl.
      * rewrite skipn_skipn. reflexivity.
      * lia.
      * intros H. lia.
      * reflexivity.
    + rewrite while_loop_done in E
        by (apply while_cond_false; right; reflexivity).
      injection E as <-. simpl. exists k. split; [exact Ht|]. split; [|split].
      * intros H. destruct (H0 H) as [-> ->]. split; reflexivity.
      * intros H. rewrite (H1 H). reflexivity.
      * intros nxt' Hn'. rewrite Hn in Hn'. injection Hn' as <-. exact Es.
Qed.

Lemma bind_ok (A : Type) (r : result A) : bind r (fun a => Ok a) = r.
Proof. destruct r; reflexivity. Qed.

(** C4, as the code has it: when the last search on page N fails
    ([page_processed] is set), what goes to the accumulator is the text of
    page N that was left at that moment: the whole normalised page when
    the current section was current at the head of the page, and only the
    text from its own title on when it became current on that page.  When
    the pattern of the next section then matches on page N+1, the first
    iteration there files, under the current title, the accumulator
    followed by the trimmed text of page N+1 before the match, and the loop
    goes on from the match with an empty accumulator. *)
Theorem cross_page_carry (doc : Document) (sections : list str)
    (st st_n : scan_state) (n : nat) (page_n page_n1 key nxt : str) (m : Match) :
  nth_error (pages doc) n = Some page_n ->
  nth_error (pages doc) (S n) = Some page_n1 ->
  for_pages lower is_decimal doc sections (map compile_section_pattern sections)
    [n] st = Ok st_n ->
  page_processed st_n = true ->
  nth_error sections (current_section_index st_n) = Some key ->
  nth_error sections (current_section_index st_n + 1) = Some nxt ->
  re_search is_decimal (compile_section_pattern nxt) (clean page_n1) = Some m ->
  exists k,
    text st_n = Some (skipn k (clean page_n))
    /\ re_search is_decimal (compile_section_pattern nxt) (skipn k (clean page_n))
       = None
    /\ (current_section_index st_n = current_section_index st ->
        k = 0
        /\ current_section_text st_n = current_section_text st ++ clean page_n)
    /\ (current_section_index st_n <> current_section_index st ->
        current_section_text st_n = skipn k (clean page_n))
    /\ for_pages lower is_decimal doc sections
         (map compile_section_pattern sections) [n; S n] st
       = while_loop is_decimal (length sections) sections
           (map compile_section_pattern sections)
           {| formatted_data :=
                Dict.set (formatted_data st_n) key
                  (current_section_text st_n
                   ++ strip (firstn (m_start m) (clean page_n1)));
              current_section_index := current_section_index st_n + 1;
              current_section_text := [];
              text := Some (skipn (m_start m) (clean page_n1));
              page_processed := false |}.
Proof.
  intros Hn Hn1 Hrun Hp Hk Hnx Hm.
  assert (Hscan : scan_page lower is_decimal sections
                    (map compile_section_pattern sections) st page_n = Ok st_n).
  { cbn [for_pages] in Hrun. unfold list_get in Hrun. rewrite Hn in Hrun.
    cbn [bind] in Hrun. rewrite bind_ok in Hrun. exact Hrun. }
  unfold scan_page in Hscan.
  destruct (@while_loop_remainder sections (clean page_n) (current_section_text st)
              (current_section_index st) (S (length sections))
              (begin_page lower st page_n) st_n 0 eq_refl eq_refl (le_n _)
              (fun _ => conj eq_refl eq_refl)
              (fun H => False_ind _ (H eq_refl)) Hscan Hp)
    as [k [Ht [H0 [H1 Hnone]]]].
  exists k. split; [exact Ht|]. split; [exact (Hnone nxt Hnx)|].
  split; [exact H0|]. split; [exact H1|].
  cbn [for_pages]. unfold list_get. rewrite Hn, Hn1. cbn [bind].
  fold (scan_page lower is_decimal sections (map compile_section_pattern sections)
          st page_n) in Hscan.
  rewrite Hscan. cbn [bind]. rewrite bind_ok. unfold scan_page.
  apply (@while_loop_found sections (length sections)
           (begin_page lower st_n page_n1) (clean page_n1) key nxt m);
    try reflexivity; assumption.
Qed.

(** C2, as the code has it: with three sections and one page whose
    normalised text is [S1 B1 S2 B2 S3 B3], where the pattern of [S2] first
    matches at the title [S2] and the pattern of [S3] then first matches at
    the title [S3], the mapping sends each title to the trimmed text from
    its own title up to the next one; the title stays at the head of the
    value. *)
Theorem three_sections_on_one_page (ttl page S1 S2 S3 B1 B2 B3 : str)
    (m2 m3 : Match) :
  clean page
  = (S1 ++ [space] ++ B1 ++ [space]) ++ (S2 ++ [space] ++ B2 ++ [space])
    ++ (S3 ++ [space] ++ B3) ->
  re_search is_decimal (compile_section_pattern S2)
    ((S1 ++ [space] ++ B1 ++ [space]) ++ (S2 ++ [space] ++ B2 ++ [space])
     ++ (S3 ++ [space] ++ B3)) = Some m2 ->
  m_start m2 = length (S1 ++ [space] ++ B1 ++ [space]) ->
  re_search is_decimal (compile_section_pattern S3)
    ((S2 ++ [space] ++ B2 ++ [space]) ++ (S3 ++ [space] ++ B3)) = Some m3 ->
  m_start m3 = length (S2 ++ [space] ++ B2 ++ [space]) ->
  extract_section_content lower is_decimal {| pages := [page]; title := ttl |} 0
    [S1; S2; S3]
  = Ok (Dict.set
          (Dict.set
             (Dict.set Dict.empty S1 (strip (S1 ++ [space] ++ B1 ++ [space])))
             S2 (strip (S2 ++ [space] ++ B2 ++ [space])))
          S3 (S3 ++ [space] ++ B3)).
Proof.
  set (X1 := S1 ++ [space] ++ B1 ++ [space]).
  set (X2 := S2 ++ [space] ++ B2 ++ [space]).
  set (X3 := S3 ++ [space] ++ B3).
  intros Hpage H2 Hm2 H3 Hm3.
  unfold extract_section_content, range.
  cbn [pages length Nat.sub seq for_pages list_get nth_error bind].
  unfold scan_page, begin_page. rewrite Hpage. cbn [length].
  rewrite (@while_loop_found [S1; S2; S3] 3 _ (X1 ++ X2 ++ X3) S1 S2 m2);
    [|reflexivity|reflexivity|reflexivity|reflexivity|exact H2].
  cbn [formatted_data current_section_index current_section_text scan_init].
  rewrite Hm2, firstn_length_app, skipn_length_app.
  rewrite (@while_loop_found [S1; S2; S3] 2 _ (X2 ++ X3) S2 S3 m3);
    [|reflexivity|reflexivity|reflexivity|reflexivity|exact H3].
  cbn [formatted_data current_section_index current_section_text].
  rewrite Hm3, firstn_length_app, skipn_length_app.
  rewrite while_loop_done by reflexivity.
  reflexivity.
Qed.

(** [extract_section_content] with an empty section list. *)
Lemma scan_pages_no_sections (raws : list str) :
  forall st,
    scan_pages lower is_decimal [] [] raws st
    = Ok (fold_left (begin_page lower) raws st).
Proof.
  induction raws as [|raw raws IH]; intros st; simpl; [reflexivity|].
  unfold scan_page. rewrite while_loop_done.
  - simpl. apply IH.
  - apply while_cond_false. left. simpl. lia.
Qed.

Lemma fold_begin_page (raws : list str) :
  forall st,
    raws <> [] ->
    exists t, text (fold_left (begin_page lower) raws st) = Some t.
Proof.
  induction raws as [|raw raws IH]; intros st Hne; [congruence|].
  simpl. destruct raws as [|raw' raws'].
  - exists (clean raw). reflexivity.
  - apply IH. discriminate.
Qed.

Lemma fold_begin_page_index (raws : list str) :
  forall st,
    current_section_index (fold_left (begin_page lower) raws st)
    = current_section_index st.
Proof.
  induction raws as [|raw raws IH]; intros st; simpl; [reflexivity|].
  rewrite IH. reflexivity.
Qed.

Lemma extract_section_content_no_sections (doc : Document) (start_page : nat) :
  start_page < length (pages doc) ->
  extract_section_content lower is_decimal doc start_page [] = Raise IndexError.
Proof.
  intros H. unfold extract_section_content. simpl map.
  rewrite for_pages_range, scan_pages_no_sections. simpl bind.
  destruct (@fold_begin_page (skipn start_page (pages doc)) scan_init) as [t Ht].
  { destruct (@skipn_nth_error _ (pages doc) start_page H) as [a [_ E]].
    rewrite E. discriminate. }
  rewrite Ht. simpl. rewrite fold_begin_page_index. reflexivity.
Qed.

Lemma extract_section_content_no_page (doc : Document) (start_page : nat)
    (sections : list str) :
  length (pages doc) <= start_page ->
  extract_section_content lower is_decimal doc start_page sections
  = Raise (UnboundLocalError "text").
Proof.
  intros H. unfold extract_section_content.
  rewrite for_pages_range, skipn_all2 by exact H. reflexivity.
Qed.





End Scanner.

(** ** The table of contents *)

Section TableOfContents.

Variable lower : str -> str.
Variable is_decimal : char -> bool.

(** C8, as the code has it: a section line met while the current chapter
    is still the empty string and the dictionary has no such key makes
    [process_toc_line] raise [KeyError] when the line does not contain
    [CHAPTER]; a section line that contains [CHAPTER] is taken by the
    chapter test, which comes first: it opens a chapter named after the
    whole trimmed line and nothing is raised. *)
Theorem section_line_before_chapter (line : str) (chapters_sections : Dict.t (list str)) :
  is_section_line is_decimal line = true ->
  Dict.get chapters_sections [] = None ->
  (is_chapter_line line = false ->
   process_toc_line lower is_decimal line [] chapters_sections = Raise (KeyError []))
  /\ (is_chapter_line line = true ->
      process_toc_line lower is_decimal line [] chapters_sections
      = Ok (strip line, Dict.set chapters_sections (strip line) [])).
Proof.
  intros Hs Hd. split; intros Hc; unfold process_toc_line; rewrite Hc.
  - rewrite Hs. unfold is_section_line in Hs.
    destruct (re_match is_decimal section_line_re (strip line)); [|discriminate].
    unfold Dict.item. rewrite Hd. reflexivity.
  - reflexivity.
Qed.

(** One iteration of the loop over the pages. *)
Lemma toc_page_spec (doc : Document) (n : nat) (raw : str) (st st1 : toc_state)
    (broke : bool) :
  toc_page lower is_decimal doc n raw st = Ok (st1, broke) ->
  last_page st1 = n
  /\ toc_found st1 = toc_found st || contains toc_marker raw
  /\ broke = toc_found st && negb (contains toc_marker raw)
             && contains (title doc) raw.
Proof.
  unfold toc_page. destruct (contains toc_marker raw) eqn:Em.
  - destruct (list_get (split toc_marker raw) 1) as [t|]; simpl; [|discriminate].
    rewrite andb_false_r.
    destruct (toc_lines lower is_decimal (split [newline] t) (current_chapter st)
                (chapters_sections st)) as [[c d]|]; simpl; [|discriminate].
    intros E. injection E as <- <-. simpl.
    rewrite orb_true_r, andb_false_r. auto.
  - simpl. destruct (toc_found st) eqn:Ef; simpl.
    + rewrite andb_true_r. destruct (contains (title doc) raw) eqn:Et.
      * intros E. injection E as <- <-. simpl. auto.
      * destruct (toc_lines lower is_decimal (split [newline] raw)
                    (current_chapter st) (chapters_sections st)) as [[c d]|];
          simpl; [|discriminate].
        intros E. injection E as <- <-. simpl. auto.
    + intros E. injection E as <- <-. simpl. auto.
Qed.

Lemma termination_fires_at (doc : Document) (pre ps : list str) (raw : str) :
  pages doc = pre ++ raw :: ps ->
  termination_fires doc (length pre)
  = existsb (contains toc_marker) pre && negb (contains toc_marker raw)
    && contains (title doc) raw.
Proof.
  intros E. unfold termination_fires. rewrite E.
  rewrite nth_error_app2, Nat.sub_diag by lia. simpl.
  rewrite firstn_length_app. reflexivity.
Qed.

Lemma toc_pages_last_page (doc : Document) (ps : list str) :
  forall pre st st',
    pages doc = pre ++ ps ->
    toc_found st = existsb (contains toc_marker) pre ->
    toc_pages lower is_decimal doc (length pre) ps st = Ok st' ->
    (forall N,
        length pre <= N ->
        termination_fires doc N = true ->
        (forall j, length pre <= j -> j < N -> termination_fires doc j = false) ->
        last_page st' = N)
    /\ ((forall j, length pre <= j -> termination_fires doc j = false) ->
        ps <> [] ->
        last_page st' = length (pages doc) - 1).
Proof.
  induction ps as [|raw ps IH]; intros pre st st' Hp Hf Hr.
  - split.
    + intros N HN Hfire _. unfold termination_fires in Hfire.
      destruct (nth_error (pages doc) N) eqn:E; [|discriminate].
      assert (N < length (pages doc)) by (apply nth_error_Some; congruence).
      rewrite Hp, app_nil_r in H. lia.
    + intros _ Hne. congruence.
  - simpl in Hr.
    destruct (toc_page lower is_decimal doc (length pre) raw st)
      as [[st1 broke]|] eqn:E1; simpl in Hr; [|discriminate].
    destruct (@toc_page_spec doc (length pre) raw st st1 broke E1) as [Hl [Hf1 Hb]].
    pose proof (@termination_fires_at doc pre ps raw Hp) as Hfire0.
    rewrite <- Hf, <- Hb in Hfire0.
    destruct broke.
    + injection Hr as <-. split.
      * intros N HN _ Hfirst.
        destruct (Nat.eq_dec N (length pre)) as [->|Hne]; [exact Hl|].
        rewrite Hfirst in Hfire0 by lia. discriminate.
      * intros Hnone _. rewrite Hnone in Hfire0 by lia. discriminate.
    + assert (Hp' : pages doc = (pre ++ [raw]) ++ ps).
      { rewrite <- app_assoc. exact Hp. }
      assert (Hlen : length (pre ++ [raw]) = S (length pre)).
      { rewrite length_app. simpl. lia. }
      assert (Hf' : toc_found st1 = existsb (contains toc_marker) (pre ++ [raw])).
      { rewrite existsb_app, Hf1, Hf. simpl. rewrite orb_false_r. reflexivity. }
      rewrite <- Hlen in Hr.
      destruct (IH (pre ++ [raw]) st1 st' Hp' Hf' Hr) as [IH1 IH2]. split.
      * intros N HN Hfire Hfirst.
        destruct (Nat.eq_dec N (length pre)) as [->|Hne]; [congruence|].
        apply IH1; [lia|exact Hfire|]. intros j Hj1 Hj2. apply Hfirst; lia.
      * intros Hnone _. destruct ps as [|raw' ps'].
        -- simpl in Hr. injection Hr as <-. rewrite Hl, Hp, length_app. simpl. lia.
        -- apply IH2; [|discriminate]. intros j Hj. apply Hnone. lia.
Qed.

(** C3, as the code has it: when the termination test first fires on page
    N, the returned [last_page] is N itself; when it never fires on a
    document that has pages, [last_page] is the index of the final page. *)
Theorem last_page_of_table_of_contents (doc : Document)
    (chapters : Dict.t (list str)) (last : nat) :
  extract_table_of_contents lower is_decimal doc = Ok (chapters, last) ->
  (forall N,
      termination_fires doc N = true ->
      (forall j, j < N -> termination_fires doc j = false) ->
      last = N)
  /\ ((forall j, termination_fires doc j = false) ->
      pages doc <> [] ->
      last = length (pages doc) - 1).
Proof.
  unfold extract_table_of_contents. intros H.
  destruct (toc_pages lower is_decimal doc 0 (pages doc) toc_init) as [st|] eqn:E;
    simpl in H; [|discriminate].
  injection H as _ <-.
  destruct (@toc_pages_last_page doc (pages doc) [] toc_init st eq_refl eq_refl E)
    as [H1 H2].
  split.
  - intros N Hfire Hfirst. apply H1; [simpl; lia|exact Hfire|].
    intros j _ Hj. apply Hfirst, Hj.
  - intros Hnone Hne. apply H2; [|exact Hne]. intros j _. apply Hnone.
Qed.

(** A document without the marker yields the empty hierarchy. *)
Lemma toc_pages_no_marker (doc : Document) (ps : list str) :
  forall n st,
    existsb (contains toc_marker) ps = false ->
    toc_found st = false ->
    exists st',
      toc_pages lower is_decimal doc n ps st = Ok st'
      /\ chapters_sections st' = chapters_sections st
      /\ (ps <> [] -> last_page st' = n + length ps - 1).
Proof.
  induction ps as [|raw ps IH]; intros n st Hm Hf.
  - exists st. repeat split. congruence.
  - simpl in Hm. apply orb_false_iff in Hm. destruct Hm as [Hm1 Hm2].
    simpl. unfold toc_page. rewrite Hm1. simpl. rewrite Hf. simpl.
    destruct (IH (S n) {| chapters_sections := chapters_sections st;
                          current_chapter := current_chapter st;
                          toc_found := false; last_page := n |} Hm2 eq_refl)
      as [st' [E [Hc Hl]]].
    exists st'. split; [exact E|]. split; [exact Hc|].
    intros _. destruct ps as [|raw' ps'].
    + simpl in E. injection E as <-. simpl. lia.
    + rewrite Hl by discriminate. simpl. lia.
Qed.

Lemma extract_table_of_contents_no_marker (doc : Document) :
  existsb (contains toc_marker) (pages doc) = false ->
  pages doc <> [] ->
  extract_table_of_contents lower is_decimal doc
  = Ok (Dict.empty, length (pages doc) - 1).
Proof.
  intros Hm Hne. unfold extract_table_of_contents.
  destruct (@toc_pages_no_marker doc (pages doc) 0 toc_init Hm eq_refl)
    as [st [E [Hc Hl]]].
  rewrite E. simpl. rewrite Hc, (Hl Hne). reflexivity.
Qed.

(** [text.split(marker)[1]] is there whenever the marker is in the text. *)
Lemma split_from_cons (sep : str) (s : str) :
  forall skip cur, exists a rest, split_from sep skip cur s = a :: rest.
Proof.
  induction s as [|c s IH]; intros skip cur; simpl.
  - eexists _, _. reflexivity.
  - destruct skip as [|k]; [|apply IH].
    destruct (startswith sep (c :: s)); [eexists _, _; reflexivity|apply IH].
Qed.

Lemma split_second (sep : str) (s : str) :
  sep <> [] -> contains sep s = true ->
  forall cur, exists a b rest, split_from sep 0 cur s = a :: b :: rest.
Proof.
  intros Hsep. induction s as [|c s IH]; intros Hc cur.
  - destruct sep; [congruence|discriminate].
  - cbn [contains] in Hc. cbn [split_from].
    destruct (startswith sep (c :: s)) eqn:E.
    + destruct (split_from_cons sep s (length sep - 1) []) as [b [rest Hb]].
      rewrite Hb. eexists _, _, _. reflexivity.
    + apply IH. exact Hc.
Qed.






End TableOfContents.

(** ** The top-level operation *)

Section Orchestrator.

Variable lower : str -> str.
Variable is_decimal : char -> bool.
Variable fs_write : str -> Dict.t str -> result unit.



(** C10, as the code has it: with an empty section list
    [extract_section_content] raises [IndexError] from every start page
    inside the document, and [UnboundLocalError] from a start page at or
    past the page count, where no page is read; for a document that has
    pages and no marker the top-level operation prints a data-processing
    error. *)
Theorem empty_section_list :
  (forall doc start_page,
      start_page < length (pages doc) ->
      extract_section_content lower is_decimal doc start_page [] = Raise IndexError)
  /\ (forall doc start_page,
         length (pages doc) <= start_page ->
         extract_section_content lower is_decimal doc start_page []
         = Raise (UnboundLocalError "text"))
  /\ (forall doc json_path,
         pages doc <> [] ->
         existsb (contains toc_marker) (pages doc) = false ->
         extract_sections_to_json lower is_decimal fs_write doc json_path
         = (Ok tt, [Printed (Data_processing_error_occurred IndexError)])).
Proof.
  split; [|split].
  - intros doc start_page H. apply extract_section_content_no_sections, H.
  - intros doc start_page H. apply extract_section_content_no_page, H.
  - intros doc json_path Hne Hm.
    unfold extract_sections_to_json, pipeline.
    rewrite (extract_table_of_contents_no_marker lower is_decimal doc Hm Hne).
    cbn [bind Dict.values Dict.empty map concat].
    rewrite extract_section_content_no_sections; [reflexivity|].
    destruct (pages doc); [congruence|simpl; lia].
Qed.

End Orchestrator.

(** ** The section patterns *)

(** C6: the pattern compiled from ["arrest of person"] is
    [arrests?\sofs?\spersons?(.*?)(?=\f|\Z)]; it matches, from the first
    character to the last, ["arrest of person"], ["arrests of persons"] and
    every other choice of singular or plural word by word; a word that is
    missing or a doubled blank is not matched. *)
Theorem arrest_of_person_pattern (is_decimal : char -> bool) :
  compile_section_pattern (u "arrest of person")
  = map (fun c => One (Chr c)) (u "arrest") ++ [Opt (Chr 115%N); One SpaceCls]
    ++ map (fun c => One (Chr c)) (u "of") ++ [Opt (Chr 115%N); One SpaceCls]
    ++ map (fun c => One (Chr c)) (u "person") ++ [Opt (Chr 115%N)]
    ++ [LazyStar DotAll; AheadFormfeedOrEnd]
  /\ Forall
       (fun t =>
          re_search is_decimal (compile_section_pattern (u "arrest of person")) t
          = Some {| m_start := 0; m_end := length t |})
       [u "arrest of person"; u "arrests of persons"; u "arrests of person";
        u "arrest of persons"; u "arrest ofs person"; u "arrests ofs person";
        u "arrest ofs persons"; u "arrests ofs persons"]
  /\ Forall
       (fun t =>
          re_search is_decimal (compile_section_pattern (u "arrest of person")) t
          = None)
       [u "arrest person"; u "arrest  of person"; u "arrestss of person"].
Proof.
  split; [reflexivity|]. split; repeat constructor.
Qed.

(** ** The extractor on the sample documents *)

Example clean_text_section_title :
  clean_text ascii_lower (u "1.  Short title") = u "1 short title".
Proof. reflexivity. Qed.

Example clean_text_dash :
  clean_text ascii_lower (u " In this Act" ++ [8212%N; newline]) = u "in this act".
Proof. reflexivity. Qed.

Example split_marker :
  split (u "ab") (u "xxabyyabzz") = [u "xx"; u "yy"; u "zz"].
Proof. reflexivity. Qed.

Example section_line_examples :
  map (is_section_line ascii_decimal)
    [u "1. Short title"; u "  12.   Arrest of persons"; u "1.Short title";
     u "CHAPTER I"; u "1. 2"]
  = [true; true; false; false; false].
Proof. reflexivity. Qed.

Example act_doc_table_of_contents :
  extract_table_of_contents ascii_lower ascii_decimal act_doc
  = Ok (act_chapters, 1).
Proof. vm_compute. reflexivity. Qed.

Example act_doc_end_to_end :
  extract_sections_to_json ascii_lower ascii_decimal fs_accepts act_doc
    (u "act.json")
  = (Ok tt,
     [Saved (u "act.json")
        [(u "1 short title",
          u "the act 1 short title this act may be cited as x");
         (u "2 interpretation", u "2 interpretation in this act")]]).
Proof. vm_compute. reflexivity. Qed.

(** C1: the two pages of [carry_doc] are gathered in the accumulator, but
    the entry written after the loop holds the text of the final page
    only. *)
Theorem last_entry_is_final_page_text :
  for_pages ascii_lower ascii_decimal carry_doc carry_sections
    (map compile_section_pattern carry_sections)
    (range 0 (length (pages carry_doc))) scan_init
  = Ok {| formatted_data := Dict.empty;
          current_section_index := 0;
          current_section_text := u "1 short title this actmay be cited as x";
          text := Some (u "may be cited as x");
          page_processed := true |}
  /\ extract_section_content ascii_lower ascii_decimal carry_doc 0 carry_sections
     = Ok [(u "1 short title", u "may be cited as x")].
Proof. split; vm_compute; reflexivity. Qed.

(** Against C2 as it is worded: on [three_doc] every value begins with the
    title of its own section. *)
Lemma three_sections_keep_their_titles :
  extract_section_content ascii_lower ascii_decimal three_doc 0 three_sections
  = Ok [(u "1 short title", u "1 short title this act may be cited as x");
        (u "2 interpretation", u "2 interpretation in this act");
        (u "3 extent", u "3 extent it extends to the whole of the country")]
  /\ extract_section_content ascii_lower ascii_decimal three_doc 0 three_sections
     <> Ok [(u "1 short title", u "this act may be cited as x");
            (u "2 interpretation", u "in this act");
            (u "3 extent", u "it extends to the whole of the country")].
Proof.
  split; [vm_compute; reflexivity|].
  intros H. vm_compute in H. discriminate H.
Qed.

Lemma three_sections_on_one_page_witness :
  extract_section_content ascii_lower ascii_decimal three_doc 0 three_sections
  = Ok (Dict.set
          (Dict.set
             (Dict.set Dict.empty (u "1 short title")
                (strip (u "1 short title" ++ [space]
                        ++ u "this act may be cited as x" ++ [space])))
             (u "2 interpretation")
             (strip (u "2 interpretation" ++ [space] ++ u "in this act" ++ [space])))
          (u "3 extent")
          (u "3 extent" ++ [space] ++ u "it extends to the whole of the country")).
Proof.
  apply (@three_sections_on_one_page ascii_lower ascii_decimal (u "THE ACT")
           three_page (u "1 short title") (u "2 interpretation") (u "3 extent")
           (u "this act may be cited as x") (u "in this act")
           (u "it extends to the whole of the country")
           {| m_start := 41; m_end := 117 |} {| m_start := 29; m_end := 76 |});
    vm_compute; reflexivity.
Defined.

(** Against C3 as it is worded: on [act_doc] the termination test fires on
    page 1 and on no earlier page, and [last_page] is 1, not 0. *)
Lemma last_page_is_the_terminating_page :
  extract_table_of_contents ascii_lower ascii_decimal act_doc = Ok (act_chapters, 1)
  /\ termination_fires act_doc 1 = true
  /\ termination_fires act_doc 0 = false
  /\ 1 <> 1 - 1.
Proof. repeat split; try (vm_compute; reflexivity). discriminate. Qed.

Lemma last_page_of_table_of_contents_witness :
  (forall N,
      termination_fires act_doc N = true ->
      (forall j, j < N -> termination_fires act_doc j = false) ->
      1 = N)
  /\ ((forall j, termination_fires act_doc j = false) ->
      pages act_doc <> [] ->
      1 = length (pages act_doc) - 1).
Proof.
  apply (@last_page_of_table_of_contents ascii_lower ascii_decimal act_doc
           act_chapters 1).
  vm_compute. reflexivity.
Defined.

Lemma cross_page_carry_witness :
  exists k,
    text two_page_after_first
    = Some (skipn k (clean_text ascii_lower
                       (u "1. Short title This Act may be cited as X. 2. Interpretation In this Act")))
    /\ current_section_text two_page_after_first
       = skipn k (clean_text ascii_lower
                    (u "1. Short title This Act may be cited as X. 2. Interpretation In this Act"))
    /\ for_pages ascii_lower ascii_decimal two_page_doc three_sections
         (map compile_section_pattern three_sections) [0; 1] scan_init
       = while_loop ascii_decimal (length three_sections) three_sections
           (map compile_section_pattern three_sections)
           {| formatted_data :=
                Dict.set (formatted_data two_page_after_first)
                  (u "2 interpretation")
                  (current_section_text two_page_after_first
                   ++ strip (firstn 38
                               (clean_text ascii_lower
                                  (u "unless the context otherwise requires. 3. Extent It extends to the whole."))));
              current_section_index := current_section_index two_page_after_first + 1;
              current_section_text := [];
              text :=
                Some (skipn 38
                        (clean_text ascii_lower
                           (u "unless the context otherwise requires. 3. Extent It extends to the whole.")));
              page_processed := false |}.
Proof.
  destruct (@cross_page_carry ascii_lower ascii_decimal two_page_doc three_sections
              scan_init two_page_after_first 0
              (u "1. Short title This Act may be cited as X. 2. Interpretation In this Act")
              (u "unless the context otherwise requires. 3. Extent It extends to the whole.")
              (u "2 interpretation") (u "3 extent")
              {| m_start := 38; m_end := 70 |}
              eq_refl eq_refl eq_refl eq_refl eq_refl eq_refl eq_refl)
    as [k [H1 [_ [_ [H3 H4]]]]].
  exists k. split; [exact H1|]. split; [|exact H4].
  apply H3. vm_compute. discriminate.
Defined.


(** Against C4 as it is worded: on [two_page_doc] the second section
    becomes current in the middle of page 0 and the pattern of the third
    finds nothing there; what joins the accumulator is the rest of the page
    from the second title on, not the whole normalised page, and the body
    filed for the second section has no more of page 0 than that. *)
Lemma carry_from_the_middle_of_a_page :
  re_search ascii_decimal (compile_section_pattern (u "3 extent"))
    (clean_text ascii_lower
       (u "1. Short title This Act may be cited as X. 2. Interpretation In this Act"))
  = None
  /\ current_section_index two_page_after_first = 1
  /\ current_section_text two_page_after_first = u "2 interpretation in this act"
  /\ clean_text ascii_lower
       (u "1. Short title This Act may be cited as X. 2. Interpretation In this Act")
     = u "1 short title this act may be cited as x 2 interpretation in this act"
  /\ extract_section_content ascii_lower ascii_decimal two_page_doc 0 three_sections
     = Ok [(u "1 short title", u "1 short title this act may be cited as x");
           (u "2 interpretation",
            u "2 interpretation in this actunless the context otherwise requires");
           (u "3 extent", u "3 extent it extends to the whole")].
Proof. repeat split; vm_compute; reflexivity. Qed.

(** Against C8 as it is worded: [1. CHAPTER I] is a section line, the
    current chapter is the empty string and the dictionary is empty, yet
    nothing is raised: the line opens a chapter. *)
Lemma numbered_chapter_line_is_not_an_error :
  is_section_line ascii_decimal (u "1. CHAPTER I") = true
  /\ process_toc_line ascii_lower ascii_decimal (u "1. CHAPTER I") [] Dict.empty
     = Ok (u "1. CHAPTER I", [(u "1. CHAPTER I", [])]).
Proof. split; vm_compute; reflexivity. Qed.

Lemma section_line_before_chapter_witness :
  process_toc_line ascii_lower ascii_decimal (u "1. Short title") [] Dict.empty
  = Raise (KeyError [])
  /\ process_toc_line ascii_lower ascii_decimal (u "1. CHAPTER I") [] Dict.empty
     = Ok (strip (u "1. CHAPTER I"),
           Dict.set Dict.empty (strip (u "1. CHAPTER I")) []).
Proof.
  split.
  - apply (@section_line_before_chapter ascii_lower ascii_decimal
             (u "1. Short title") Dict.empty eq_refl eq_refl).
    reflexivity.
  - apply (@section_line_before_chapter ascii_lower ascii_decimal
             (u "1. CHAPTER I") Dict.empty eq_refl eq_refl).
    reflexivity.
Defined.




(** Against C10 as it is worded: from a start page past the last page no
    page is read, and the exception is [UnboundLocalError]. *)
Lemma empty_section_list_past_the_end :
  extract_section_content ascii_lower ascii_decimal act_doc 3 []
  = Raise (UnboundLocalError "text")
  /\ extract_section_content ascii_lower ascii_decimal act_doc 3 []
     <> Raise IndexError.
Proof.
  split; [vm_compute; reflexivity|].
  intros H. vm_compute in H. discriminate H.
Qed.

Lemma empty_section_list_witness :
  extract_section_content ascii_lower ascii_decimal act_doc 2 [] = Raise IndexError
  /\ extract_section_content ascii_lower ascii_decimal act_doc 3 []
     = Raise (UnboundLocalError "text")
  /\ extract_sections_to_json ascii_lower ascii_decimal fs_accepts carry_doc
       (u "out.json")
     = (Ok tt, [Printed (Data_processing_error_occurred IndexError)]).
Proof.
  destruct (empty_section_list ascii_lower ascii_decimal fs_accepts)
    as [H1 [H2 H3]].
  split; [|split].
  - apply H1. simpl. lia.
  - apply H2. simpl. lia.
  - apply H3; [discriminate|reflexivity].
Defined.

(** * Further properties *)

(** ** The shape of normalised text *)

Lemma rstrip_last_space (a : str) (c : char) :
  isspace c = true -> rstrip (a ++ [c]) = rstrip a.
Proof.
  intros H. unfold rstrip. rewrite rev_app_distr. simpl. rewrite H. reflexivity.
Qed.

Lemma rstrip_length (a : str) : length (rstrip a) <= length a.
Proof.
  destruct (rstrip_prefix a) as [b E]. rewrite E at 2. rewrite length_app. lia.
Qed.

Lemma clean_text_stripped (lower : str -> str) (x : str) :
  lstrip (clean_text lower x) = clean_text lower x
  /\ rstrip (clean_text lower x) = clean_text lower x.
Proof.
  unfold clean_text, strip. split; [apply lstrip_rstrip_lstrip|apply rstrip_idem].
Qed.

(** X1: in the output of [clean_text] a whitespace character is a single
    space that stands between two characters that are no whitespace; so
    the output has no leading, trailing or repeated whitespace. *)
Theorem clean_text_whitespace (lower : str -> str) (x a b : str) (c : char) :
  clean_text lower x = a ++ c :: b ->
  isspace c = true ->
  c = space
  /\ (exists a' d, a = a' ++ [d] /\ isspace d = false)
  /\ (exists e b', b = e :: b' /\ isspace e = false).
Proof.
  intros E Hc.
  pose proof (clean_text_single_spaced lower x) as Hs.
  destruct (clean_text_stripped lower x) as [Hl Hr].
  rewrite E in Hs, Hl, Hr.
  pose proof (single_spaced_app_r _ _ Hs) as Hcb. simpl in Hcb.
  destruct Hcb as [Hc' _]. destruct (Hc' Hc) as [-> Hb]. split; [reflexivity|].
  split.
  - destruct a as [|a0 a1].
    + simpl in Hl. rewrite ?Hc in Hl.
      destruct (lstrip_suffix b) as [p Hp].
      assert (length (lstrip b) = S (length b)) by (rewrite Hl; reflexivity).
      assert (length b = length p + length (lstrip b))
        by (rewrite Hp at 1; apply length_app).
      lia.
    + destruct (@exists_last _ (a0 :: a1)) as [a' [d Ea]]; [discriminate|].
      exists a', d. split; [exact Ea|].
      rewrite Ea, <- app_assoc in Hs. apply single_spaced_app_r in Hs.
      simpl in Hs. destruct Hs as [Hd _].
      destruct (isspace d) eqn:Ed; [|reflexivity].
      destruct (Hd eq_refl) as [_ H]. rewrite Hc in H. discriminate.
  - destruct b as [|e b'].
    + rewrite rstrip_last_space in Hr by exact Hc.
      pose proof (rstrip_length a) as H. rewrite Hr, length_app in H.
      simpl in H. lia.
    + exists e, b'. split; [reflexivity|exact Hb].
Qed.

(** X2: if lowering brings in no punctuation, the output of [clean_text]
    holds no character of [string.punctuation], no em dash and no right
    single quotation mark. *)
Theorem clean_text_strips_punctuation (lower : str -> str) :
  (forall s, Forall (fun c => ~ In c characters_to_replace) s ->
             Forall (fun c => ~ In c characters_to_replace) (lower s)) ->
  forall x c, In c (clean_text lower x) -> ~ In c characters_to_replace.
Proof.
  intros H x c Hc.
  pose proof (clean_text_no_punctuation lower H x) as Hx.
  rewrite Forall_forall in Hx. exact (Hx c Hc).
Qed.

(** ** What the regular expressions match *)

Section Matching.

Variable is_decimal : char -> bool.

Lemma match_plus (k : cls) (r : regex) (s : str) :
  match_items is_decimal (Plus k :: r) s
  = match s with
    | c :: s' =>
        if cls_ok is_decimal k c
        then option_map S (match_items is_decimal (Star k :: r) s')
        else None
    | [] => None
    end.
Proof. destruct s; reflexivity. Qed.

Lemma match_star (k : cls) (r : regex) (t : str) :
  match_items is_decimal (Star k :: r) t
  = match t with
    | d :: t' =>
        if cls_ok is_decimal k d then
          match match_items is_decimal (Star k :: r) t' with
          | Some n => Some (S n)
          | None => match_items is_decimal r t
          end
        else match_items is_decimal r t
    | [] => match_items is_decimal r t
    end.
Proof. destruct t; reflexivity. Qed.

Lemma match_lazy (k : cls) (r : regex) (t : str) :
  match_items is_decimal (LazyStar k :: r) t
  = match match_items is_decimal r t with
    | Some n => Some n
    | None =>
        match t with
        | d :: t' =>
            if cls_ok is_decimal k d
            then option_map S (match_items is_decimal (LazyStar k :: r) t')
            else None
        | [] => None
        end
    end.
Proof. destruct t; reflexivity. Qed.

(** A successful starred item took a run of its class and left the rest
    to the items behind it. *)
Lemma star_sound (k : cls) (r : regex) (t : str) :
  forall n,
    match_items is_decimal (Star k :: r) t = Some n ->
    exists ds t' m,
      t = ds ++ t'
      /\ Forall (fun c => cls_ok is_decimal k c = true) ds
      /\ match_items is_decimal r t' = Some m
      /\ n = length ds + m.
Proof.
  induction t as [|d t IH]; intros n; rewrite match_star.
  - intros H. exists [], [], n. repeat split; [constructor|exact H].
  - destruct (cls_ok is_decimal k d) eqn:Ed.
    + destruct (match_items is_decimal (Star k :: r) t) as [n'|] eqn:E.
      * intros H. injection H as <-.
        destruct (IH n' eq_refl) as [ds [t' [m [Et [Hds [Hm Hn]]]]]].
        exists (d :: ds), t', m. subst t. repeat split.
        -- constructor; assumption.
        -- exact Hm.
        -- simpl. lia.
      * intros H. exists [], (d :: t), n. repeat split; [constructor|exact H].
    + intros H. exists [], (d :: t), n. repeat split; [constructor|exact H].
Qed.

(** Backtracking finds a match whenever a run of the class followed by a
    match of the remaining items exists. *)
Lemma star_complete (k : cls) (r : regex) (ds t : str) :
  Forall (fun c => cls_ok is_decimal k c = true) ds ->
  (exists m, match_items is_decimal r t = Some m) ->
  exists n, match_items is_decimal (Star k :: r) (ds ++ t) = Some n.
Proof.
  intros Hds [m Hm]. induction Hds as [|d ds Hd _ IH]; simpl app.
  - rewrite match_star. destruct t as [|c t'].
    + exists m. exact Hm.
    + destruct (cls_ok is_decimal k c).
      * destruct (match_items is_decimal (Star k :: r) t') as [n'|];
          [exists (S n'); reflexivity|exists m; exact Hm].
      * exists m. exact Hm.
  - rewrite match_star, Hd. destruct IH as [n Hn]. rewrite Hn.
    exists (S n). reflexivity.
Qed.

Lemma star_dot_line (t : str) :
  ~ In newline t -> match_items is_decimal [Star Dot] t = Some (length t).
Proof.
  induction t as [|d t IH]; intros H; rewrite match_star; [reflexivity|].
  assert (Hd : cls_ok is_decimal Dot d = true).
  { simpl. apply negb_true_iff, N.eqb_neq. intros ->. apply H. left. reflexivity. }
  rewrite Hd, IH; [reflexivity|]. intros Hin. apply H. right. exact Hin.
Qed.

Lemma star_last (k : cls) (t : str) :
  exists n, match_items is_decimal [Star k] t = Some n.
Proof.
  induction t as [|d t [n IH]]; rewrite match_star; [exists 0; reflexivity|].
  destruct (cls_ok is_decimal k d); [|exists 0; reflexivity].
  rewrite IH. exists (S n). reflexivity.
Qed.

Lemma match_one (k : cls) (r : regex) (s : str) :
  match_items is_decimal (One k :: r) s
  = match s with
    | c :: s' =>
        if cls_ok is_decimal k c
        then option_map S (match_items is_decimal r s')
        else None
    | [] => None
    end.
Proof. destruct s; reflexivity. Qed.

Lemma match_opt (k : cls) (r : regex) (s : str) :
  match_items is_decimal (Opt k :: r) s
  = match s with
    | c :: s' =>
        if cls_ok is_decimal k c then
          match match_items is_decimal r s' with
          | Some n => Some (S n)
          | None => match_items is_decimal r s
          end
        else match_items is_decimal r s
    | [] => match_items is_decimal r s
    end.
Proof. destruct s; reflexivity. Qed.

Lemma plus_sound (k : cls) (r : regex) (s : str) (n : nat) :
  match_items is_decimal (Plus k :: r) s = Some n ->
  exists d ds t' m,
    s = (d :: ds) ++ t'
    /\ Forall (fun c => cls_ok is_decimal k c = true) (d :: ds)
    /\ match_items is_decimal r t' = Some m
    /\ n = length (d :: ds) + m.
Proof.
  rewrite match_plus. destruct s as [|d s']; [discriminate|].
  destruct (cls_ok is_decimal k d) eqn:Ed; [|discriminate].
  destruct (match_items is_decimal (Star k :: r) s') as [n'|] eqn:E;
    [|discriminate].
  intros H. injection H as <-.
  apply star_sound in E. destruct E as [ds [t' [m [-> [Hds [Hm ->]]]]]].
  exists d, ds, t', m. repeat split; [constructor; assumption|exact Hm].
Qed.

Lemma plus_complete (k : cls) (r : regex) (d : char) (ds t : str) :
  Forall (fun c => cls_ok is_decimal k c = true) (d :: ds) ->
  (exists m, match_items is_decimal r t = Some m) ->
  exists n, match_items is_decimal (Plus k :: r) ((d :: ds) ++ t) = Some n.
Proof.
  intros H Hm. inversion H as [|? ? Hd Hds]; subst.
  cbn [app]. rewrite match_plus. cbv beta iota. rewrite Hd.
  destruct (@star_complete k r ds t Hds Hm) as [n Hn]. rewrite Hn.
  exists (S n). reflexivity.
Qed.

Lemma one_sound (k : cls) (r : regex) (s : str) (n : nat) :
  match_items is_decimal (One k :: r) s = Some n ->
  exists c s' m,
    s = c :: s' /\ cls_ok is_decimal k c = true
    /\ match_items is_decimal r s' = Some m /\ n = S m.
Proof.
  rewrite match_one. destruct s as [|c s']; [discriminate|].
  destruct (cls_ok is_decimal k c) eqn:Ec; [|discriminate].
  destruct (match_items is_decimal r s') as [m|] eqn:E; [|discriminate].
  intros H. injection H as <-. exists c, s', m. repeat split; assumption.
Qed.

(** What a match of the section-line pattern looks like, and how far it
    reaches. *)
Lemma section_line_sound (s : str) (n : nat) :
  match_items is_decimal section_line_re s = Some n ->
  exists d ds w ws l rest,
    s = (d :: ds) ++ [46%N] ++ (w :: ws) ++ l :: rest
    /\ Forall (fun c => is_decimal c = true) (d :: ds)
    /\ Forall (fun c => isspace c = true) (w :: ws)
    /\ in_range 65 90 l || in_range 97 122 l = true
    /\ (~ In newline rest -> n = length s).
Proof.
  unfold section_line_re. intros H.
  apply plus_sound in H. destruct H as [d [ds [t1 [m1 [-> [Hd [H ->]]]]]]].
  apply one_sound in H. destruct H as [p [t2 [m2 [-> [Hp [H ->]]]]]].
  apply plus_sound in H. destruct H as [w [ws [t3 [m3 [-> [Hw [H ->]]]]]]].
  apply one_sound in H. destruct H as [l [rest [m4 [-> [Hl [H ->]]]]]].
  cbn [cls_ok] in Hp. apply N.eqb_eq in Hp. subst p.
  exists d, ds, w, ws, l, rest. repeat split; try assumption.
  intros Hn. rewrite (@star_dot_line rest Hn) in H. injection H as <-.
  repeat (rewrite length_app || cbn [length]). lia.
Qed.

Lemma section_line_complete (d w l : char) (ds ws rest : str) :
  Forall (fun c => is_decimal c = true) (d :: ds) ->
  Forall (fun c => isspace c = true) (w :: ws) ->
  in_range 65 90 l || in_range 97 122 l = true ->
  exists n,
    match_items is_decimal section_line_re
      ((d :: ds) ++ [46%N] ++ (w :: ws) ++ l :: rest) = Some n.
Proof.
  intros Hd Hw Hl. unfold section_line_re.
  apply plus_complete; [exact Hd|].
  cbn [app]. rewrite match_one. cbn [cls_ok]. rewrite N.eqb_refl.
  destruct (@plus_complete SpaceCls [One AlphaCls; Star Dot] w ws (l :: rest) Hw)
    as [n Hn].
  - rewrite match_one. cbn [cls_ok]. rewrite Hl.
    destruct (star_last Dot rest) as [m Hm]. rewrite Hm. exists (S m). reflexivity.
  - cbn [app] in Hn. rewrite Hn. exists (S n). reflexivity.
Qed.

(** X3: [is_section_line] holds exactly of the lines that, once trimmed,
    consist of one or more decimal digits, a full stop, one or more
    whitespace characters, an ASCII letter, and anything after it. *)
Theorem is_section_line_iff (line : str) :
  is_section_line is_decimal line = true
  <-> exists d ds w ws l rest,
        strip line = (d :: ds) ++ [46%N] ++ (w :: ws) ++ l :: rest
        /\ Forall (fun c => is_decimal c = true) (d :: ds)
        /\ Forall (fun c => isspace c = true) (w :: ws)
        /\ in_range 65 90 l || in_range 97 122 l = true.
Proof.
  unfold is_section_line, re_match. split.
  - destruct (match_items is_decimal section_line_re (strip line)) as [n|] eqn:E;
      [|discriminate].
    intros _. apply section_line_sound in E. destruct E
      as [d [ds [w [ws [l [rest [Hs [Hd [Hw [Hl _]]]]]]]]]].
    exists d, ds, w, ws, l, rest. repeat split; assumption.
  - intros [d [ds [w [ws [l [rest [Hs [Hd [Hw Hl]]]]]]]]].
    destruct (@section_line_complete d w l ds ws rest Hd Hw Hl) as [n Hn].
    assert (E : match_items is_decimal section_line_re (strip line) = Some n)
      by (rewrite Hs; exact Hn).
    rewrite E. reflexivity.
Qed.

End Matching.

(** ** Keys of a dictionary *)

Lemma get_None_keys (V : Type) (d : Dict.t V) (k : str) :
  Dict.get d k = None <-> ~ In k (dict_keys d).
Proof.
  induction d as [|[k' v'] d IH]; simpl; [tauto|].
  destruct (str_eqb k' k) eqn:E.
  - apply str_eqb_eq in E. split; [discriminate|]. intros H. exfalso. apply H.
    left. exact E.
  - apply str_eqb_neq in E. rewrite IH. tauto.
Qed.

Lemma get_Some_In (V : Type) (d : Dict.t V) (k : str) (v : V) :
  Dict.get d k = Some v -> In (k, v) d.
Proof.
  induction d as [|[k' v'] d IH]; simpl; [discriminate|].
  destruct (str_eqb k' k) eqn:E.
  - apply str_eqb_eq in E. intros H. injection H as <-. left. congruence.
  - intros H. right. exact (IH H).
Qed.

Lemma keys_set_new (V : Type) (d : Dict.t V) (k : str) (v : V) :
  Dict.get d k = None -> dict_keys (Dict.set d k v) = dict_keys d ++ [k].
Proof.
  induction d as [|[k' v'] d IH]; simpl; [reflexivity|].
  destruct (str_eqb k' k); [discriminate|]. intros H. simpl. rewrite (IH H).
  reflexivity.
Qed.

Lemma keys_set_old (V : Type) (d : Dict.t V) (k : str) (v w : V) :
  Dict.get d k = Some w -> dict_keys (Dict.set d k v) = dict_keys d.
Proof.
  induction d as [|[k' v'] d IH]; simpl; [discriminate|].
  destruct (str_eqb k' k); [reflexivity|]. intros H. simpl. rewrite (IH H).
  reflexivity.
Qed.

Lemma In_set (V : Type) (d : Dict.t V) (k k' : str) (v v' : V) :
  In (k', v') (Dict.set d k v) -> (k' = k /\ v' = v) \/ In (k', v') d.
Proof.
  induction d as [|[k0 v0] d IH]; simpl.
  - intros [H|[]]. injection H as <- <-. left. split; reflexivity.
  - destruct (str_eqb k0 k) eqn:E; simpl.
    + apply str_eqb_eq in E. subst k0. intros [H|H].
      * injection H as <- <-. left. split; reflexivity.
      * right. right. exact H.
    + intros [H|H]; [right; left; exact H|].
      destruct (IH H) as [H'|H']; [left; exact H'|right; right; exact H'].
Qed.

Lemma NoDup_keys_set (V : Type) (d : Dict.t V) (k : str) (v : V) :
  NoDup (dict_keys d) -> NoDup (dict_keys (Dict.set d k v)).
Proof.
  intros H. destruct (Dict.get d k) as [w|] eqn:E.
  - rewrite (keys_set_old _ _ v E). exact H.
  - rewrite (keys_set_new _ _ v E). apply NoDup_app; repeat split.
    + exact H.
    + constructor; [intros []|constructor].
    + intros x Hx [<-|[]]. apply get_None_keys in E. contradiction.
Qed.

(** ** Trimming keeps a word that is inside *)

Lemma contains_nil (p : str) : p <> [] -> contains p [] = false.
Proof. destruct p; [congruence|reflexivity]. Qed.

Lemma contains_cons (p : str) (c : char) (s : str) :
  contains p s = true -> contains p (c :: s) = true.
Proof. intros H. cbn [contains]. rewrite H. apply orb_true_r. Qed.

Lemma contains_lstrip (p : str) (p0 : char) (p' s : str) :
  p = p0 :: p' -> isspace p0 = false ->
  contains p s = true -> contains p (lstrip s) = true.
Proof.
  intros -> Hp. induction s as [|c s IH]; intros H; [exact H|].
  simpl lstrip. destruct (isspace c) eqn:Ec; [|exact H].
  apply IH. cbn [contains startswith] in H.
  destruct (p0 =? c)%N eqn:E; [|exact H].
  apply N.eqb_eq in E. congruence.
Qed.

Lemma startswith_rstrip (p : str) :
  forall s,
    p <> [] -> isspace (last p space) = false ->
    startswith p s = true -> startswith p (rstrip s) = true.
Proof.
  induction p as [|a p IH]; intros s Hne Hl H; [congruence|].
  destruct s as [|c x]; [discriminate|].
  cbn [startswith] in H. apply andb_true_iff in H. destruct H as [Hac Hx].
  apply N.eqb_eq in Hac. subst c. rewrite rstrip_cons.
  destruct p as [|b p].
  - simpl in Hl. destruct (rstrip x); [rewrite Hl|]; simpl;
      rewrite N.eqb_refl; reflexivity.
  - assert (Hr : startswith (b :: p) (rstrip x) = true).
    { apply IH; [discriminate|exact Hl|exact Hx]. }
    destruct (rstrip x) as [|r0 r]; [discriminate|].
    cbn [startswith]. rewrite N.eqb_refl. exact Hr.
Qed.

Lemma contains_rstrip (p : str) :
  p <> [] -> isspace (last p space) = false ->
  forall s, contains p s = true -> contains p (rstrip s) = true.
Proof.
  intros Hne Hl. induction s as [|c x IH]; intros H; [exact H|].
  cbn [contains] in H. apply orb_true_iff in H. destruct H as [H|H].
  - apply (startswith_rstrip _ Hne Hl) in H.
    destruct (rstrip (c :: x)); cbn [contains]; rewrite H; reflexivity.
  - specialize (IH H). rewrite rstrip_cons.
    destruct (rstrip x) as [|r0 r].
    + rewrite contains_nil in IH by exact Hne. discriminate.
    + apply contains_cons. exact IH.
Qed.

Lemma is_chapter_line_strip (line : str) :
  is_chapter_line line = true -> is_chapter_line (strip line) = true.
Proof.
  unfold is_chapter_line, strip. intros H.
  apply contains_rstrip; [discriminate|reflexivity|].
  apply (@contains_lstrip _ 67%N (u "HAPTER")); [reflexivity|reflexivity|exact H].
Qed.

Lemma In_strip (c : char) (s : str) : In c (strip s) -> In c s.
Proof.
  unfold strip. intros H.
  destruct (lstrip_suffix s) as [a Ea]. rewrite Ea. apply in_or_app. right.
  destruct (rstrip_prefix (lstrip s)) as [b Eb]. rewrite Eb. apply in_or_app.
  left. exact H.
Qed.

(** ** More on the table of contents *)

Section TableOfContentsFurther.

Variable lower : str -> str.
Variable is_decimal : char -> bool.

Lemma process_toc_line_failure (line chapter : str) (d : Dict.t (list str))
    (e : exn) :
  process_toc_line lower is_decimal line chapter d = Raise e ->
  is_chapter_line line = false
  /\ is_section_line is_decimal line = true
  /\ Dict.get d chapter = None
  /\ e = KeyError chapter.
Proof.
  unfold process_toc_line, is_section_line, Dict.item.
  destruct (is_chapter_line line); [discriminate|].
  destruct (re_match is_decimal section_line_re (strip line)); [|discriminate].
  destruct (Dict.get d chapter); simpl; [discriminate|].
  intros H. injection H as <-. repeat split.
Qed.

(** X4: [process_toc_line] fails in one case only: the line goes to the
    section branch and the current chapter is no key of the dictionary;
    the exception is the [KeyError] of that chapter. *)
Theorem process_toc_line_fails_iff (line chapter : str) (d : Dict.t (list str))
    (e : exn) :
  process_toc_line lower is_decimal line chapter d = Raise e
  <-> is_chapter_line line = false
      /\ is_section_line is_decimal line = true
      /\ Dict.get d chapter = None
      /\ e = KeyError chapter.
Proof.
  split; [apply process_toc_line_failure|].
  unfold process_toc_line, is_section_line, Dict.item.
  intros [Hc [Hs [Hd ->]]]. rewrite Hc.
  destruct (re_match is_decimal section_line_re (strip line)); [|discriminate].
  rewrite Hd. reflexivity.
Qed.

(** X5: a chapter line makes its trimmed text the current chapter and
    gives it an empty section list, also when the heading was there already
    (its former list is lost, its place is kept); a new heading goes last;
    the other chapters keep their lists. *)
Theorem chapter_line_opens_chapter (line chapter : str) (d : Dict.t (list str)) :
  is_chapter_line line = true ->
  exists d',
    process_toc_line lower is_decimal line chapter d = Ok (strip line, d')
    /\ Dict.get d' (strip line) = Some []
    /\ (forall k, k <> strip line -> Dict.get d' k = Dict.get d k)
    /\ dict_keys d'
       = match Dict.get d (strip line) with
         | Some _ => dict_keys d
         | None => dict_keys d ++ [strip line]
         end.
Proof.
  intros H. unfold process_toc_line. rewrite H.
  exists (Dict.set d (strip line) []). split; [reflexivity|].
  split; [apply get_set_same|]. split.
  - intros k Hk. apply get_set_other. congruence.
  - destruct (Dict.get d (strip line)) as [w|] eqn:E.
    + exact (keys_set_old _ _ [] E).
    + exact (keys_set_new _ _ [] E).
Qed.

(** X6: a section line that is not a chapter line (it does not contain
    [CHAPTER]), under a chapter that is a key, appends one title to the
    list of that chapter and touches nothing else; the title is an output
    of [clean_text], and for a line without a newline it is the normalised
    trimmed line. *)
Theorem section_line_joins_chapter (line chapter : str) (d : Dict.t (list str))
    (secs : list str) :
  is_chapter_line line = false ->
  is_section_line is_decimal line = true ->
  Dict.get d chapter = Some secs ->
  exists section_title d',
    process_toc_line lower is_decimal line chapter d = Ok (chapter, d')
    /\ Dict.get d' chapter = Some (secs ++ [section_title])
    /\ (forall k, k <> chapter -> Dict.get d' k = Dict.get d k)
    /\ dict_keys d' = dict_keys d
    /\ (exists x, section_title = clean_text lower x)
    /\ (~ In newline line -> section_title = clean_text lower (strip line)).
Proof.
  intros Hc Hs Hd. unfold process_toc_line. rewrite Hc, Hs.
  unfold is_section_line, re_match in *.
  destruct (match_items is_decimal section_line_re (strip line)) as [n|] eqn:E;
    [|discriminate].
  simpl option_map. cbv beta iota. unfold Dict.item. rewrite Hd. simpl bind.
  eexists _, _. split; [reflexivity|].
  split; [apply get_set_same|]. split; [|split; [|split]].
  - intros k Hk. apply get_set_other. congruence.
  - exact (keys_set_old _ _ _ Hd).
  - eexists. reflexivity.
  - intros Hn. f_equal. unfold group. cbn [m_start m_end skipn].
    rewrite Nat.sub_0_r.
    apply section_line_sound in E.
    destruct E as [d0 [ds [w [ws [l [rest [Hs' [_ [_ [_ Hlen]]]]]]]]]].
    rewrite Hlen; [apply firstn_all|].
    intros Hin. apply Hn. apply In_strip. rewrite Hs'.
    apply in_or_app. right. apply in_or_app. right. apply in_or_app. right.
    right. exact Hin.
Qed.

(** The loop keeps [toc_invariant]. *)
Lemma process_toc_line_invariant (line chapter chapter' : str)
    (d d' : Dict.t (list str)) :
  toc_invariant lower d chapter ->
  process_toc_line lower is_decimal line chapter d = Ok (chapter', d') ->
  toc_invariant lower d' chapter'.
Proof.
  intros [Hnd [Hent Hcur]]. unfold process_toc_line.
  destruct (is_chapter_line line) eqn:Hc.
  - intros H. injection H as <- <-. split; [|split].
    + apply NoDup_keys_set, Hnd.
    + intros k secs Hin. apply In_set in Hin. destruct Hin as [[-> ->]|Hin].
      * split; [apply is_chapter_line_strip, Hc|]. split; [apply strip_idem|].
        constructor.
      * exact (Hent k secs Hin).
    + right. rewrite get_set_same. discriminate.
  - destruct (is_section_line is_decimal line).
    + destruct (re_match is_decimal section_line_re (strip line)) as [m|];
        [|discriminate].
      unfold Dict.item. destruct (Dict.get d chapter) as [secs|] eqn:Hd;
        simpl; [|discriminate].
      intros H. injection H as <- <-. split; [|split].
      * apply NoDup_keys_set, Hnd.
      * intros k ss Hin. apply In_set in Hin. destruct Hin as [[-> ->]|Hin].
        -- destruct (Hent chapter secs (get_Some_In _ _ Hd)) as [H1 [H2 H3]].
           split; [exact H1|]. split; [exact H2|].
           apply Forall_app. split; [exact H3|].
           constructor; [eexists; reflexivity|constructor].
        -- exact (Hent k ss Hin).
      * right. rewrite get_set_same. discriminate.
    + intros H. injection H as <- <-. split; [exact Hnd|]. split; assumption.
Qed.

Lemma toc_lines_invariant (ls : list str) :
  forall chapter d chapter' d',
    toc_invariant lower d chapter ->
    toc_lines lower is_decimal ls chapter d = Ok (chapter', d') ->
    toc_invariant lower d' chapter'.
Proof.
  induction ls as [|line ls IH]; intros chapter d chapter' d' Hi; simpl.
  - intros H. injection H as <- <-. exact Hi.
  - destruct (process_toc_line lower is_decimal line chapter d) as [[c1 d1]|]
      eqn:E; simpl; [|discriminate].
    apply IH. exact (process_toc_line_invariant _ Hi E).
Qed.

Lemma toc_lines_keyerror (ls : list str) :
  forall chapter d e,
    toc_invariant lower d chapter ->
    toc_lines lower is_decimal ls chapter d = Raise e -> e = KeyError [].
Proof.
  induction ls as [|line ls IH]; intros chapter d e Hi; simpl; [discriminate|].
  destruct (process_toc_line lower is_decimal line chapter d) as [[c1 d1]|e1]
    eqn:E; simpl.
  - apply IH. exact (process_toc_line_invariant _ Hi E).
  - intros H. injection H as <-.
    apply process_toc_line_failure in E. destruct E as [_ [_ [Hd ->]]].
    destruct Hi as [_ [_ [->|Hk]]]; [reflexivity|contradiction].
Qed.

Lemma toc_page_invariant (doc : Document) (n : nat) (raw : str) (st : toc_state) :
  toc_invariant lower (chapters_sections st) (current_chapter st) ->
  match toc_page lower is_decimal doc n raw st with
  | Ok (st', _) =>
      toc_invariant lower (chapters_sections st') (current_chapter st')
  | Raise e => e = KeyError []
  end.
Proof.
  intros Hi. unfold toc_page.
  destruct (contains toc_marker raw) eqn:Em.
  - destruct (@split_second toc_marker raw ltac:(discriminate) Em [])
      as [a [b [rest Hs]]].
    unfold split, list_get. rewrite Hs. simpl. rewrite andb_false_r.
    destruct (toc_lines lower is_decimal (split_from [newline] 0 [] b)
                (current_chapter st) (chapters_sections st)) as [[c d]|e] eqn:E;
      simpl.
    + exact (toc_lines_invariant _ Hi E).
    + exact (toc_lines_keyerror _ Hi E).
  - simpl. destruct (toc_found st); [|exact Hi].
    rewrite andb_true_r. destruct (contains (title doc) raw); [exact Hi|].
    destruct (toc_lines lower is_decimal (split [newline] raw)
                (current_chapter st) (chapters_sections st)) as [[c d]|e] eqn:E;
      simpl.
    + exact (toc_lines_invariant _ Hi E).
    + exact (toc_lines_keyerror _ Hi E).
Qed.

Lemma toc_pages_invariant (doc : Document) (ps : list str) :
  forall n st,
    toc_invariant lower (chapters_sections st) (current_chapter st) ->
    match toc_pages lower is_decimal doc n ps st with
    | Ok st' => toc_invariant lower (chapters_sections st') (current_chapter st')
    | Raise e => e = KeyError []
    end.
Proof.
  induction ps as [|raw ps IH]; intros n st Hi; simpl; [exact Hi|].
  pose proof (@toc_page_invariant doc n raw st Hi) as Hp.
  destruct (toc_page lower is_decimal doc n raw st) as [[st1 broke]|e]; simpl;
    [|exact Hp].
  destruct broke; [exact Hp|apply IH, Hp].
Qed.

Lemma toc_init_invariant :
  toc_invariant lower (chapters_sections toc_init) (current_chapter toc_init).
Proof.
  split; [constructor|]. split; [intros k secs []|left; reflexivity].
Qed.

Lemma toc_failure_keyerror (doc : Document) (e : exn) :
  extract_table_of_contents lower is_decimal doc = Raise e -> e = KeyError [].
Proof.
  unfold extract_table_of_contents.
  pose proof (@toc_pages_invariant doc (pages doc) 0 toc_init toc_init_invariant) as H.
  destruct (toc_pages lower is_decimal doc 0 (pages doc) toc_init); simpl;
    [discriminate|].
  intros E. injection E as <-. exact H.
Qed.

(** X7: the one way for [extract_table_of_contents] to fail is the
    [KeyError] of the empty string, a section line met before any chapter
    line; and it fails only on a document that carries the marker. *)
Theorem extract_table_of_contents_fails_with (doc : Document) (e : exn) :
  extract_table_of_contents lower is_decimal doc = Raise e ->
  e = KeyError [] /\ existsb (contains toc_marker) (pages doc) = true.
Proof.
  intros H. split; [exact (@toc_failure_keyerror doc e H)|].
  destruct (existsb (contains toc_marker) (pages doc)) eqn:Em; [reflexivity|].
  destruct (pages doc) as [|raw ps] eqn:Ep.
  - unfold extract_table_of_contents in H. rewrite Ep in H. discriminate H.
  - rewrite <- Ep in Em.
    rewrite (extract_table_of_contents_no_marker lower is_decimal doc Em) in H;
      [discriminate H|].
    rewrite Ep. discriminate.
Qed.

(** X8: in the hierarchy that [extract_table_of_contents] returns the
    chapter headings are pairwise distinct, each is trimmed and contains
    [CHAPTER] (so none is empty), and each section title is an output of
    [clean_text]. *)
Theorem table_of_contents_well_formed (doc : Document)
    (chapters : Dict.t (list str)) (last : nat) :
  extract_table_of_contents lower is_decimal doc = Ok (chapters, last) ->
  NoDup (dict_keys chapters)
  /\ forall k secs,
       In (k, secs) chapters ->
       is_chapter_line k = true /\ strip k = k /\ k <> []
       /\ forall s, In s secs -> exists x, s = clean_text lower x.
Proof.
  unfold extract_table_of_contents.
  pose proof (@toc_pages_invariant doc (pages doc) 0 toc_init toc_init_invariant) as H.
  destruct (toc_pages lower is_decimal doc 0 (pages doc) toc_init) as [st|];
    simpl; [|discriminate].
  intros E. injection E as <- <-. destruct H as [Hnd [Hent _]].
  split; [exact Hnd|]. intros k secs Hin.
  destruct (Hent k secs Hin) as [H1 [H2 H3]].
  split; [exact H1|]. split; [exact H2|]. split.
  - intros ->. discriminate H1.
  - apply Forall_forall. exact H3.
Qed.

End TableOfContentsFurther.

(** ** Which pages the table of contents depends on *)

Section TableOfContentsPages.

Variable lower : str -> str.
Variable is_decimal : char -> bool.

(** X9: without the marker on any page the hierarchy is empty and
    [last_page] is the index of the final page (0 for a document without
    pages). *)
Theorem no_marker_no_chapters (doc : Document) :
  existsb (contains toc_marker) (pages doc) = false ->
  extract_table_of_contents lower is_decimal doc
  = Ok (Dict.empty, length (pages doc) - 1).
Proof.
  intros H. destruct (pages doc) as [|raw ps] eqn:E.
  - unfold extract_table_of_contents. rewrite E. reflexivity.
  - rewrite <- E in *. apply extract_table_of_contents_no_marker; [exact H|].
    rewrite E. discriminate.
Qed.

Lemma toc_pages_last_bound (doc : Document) (ps : list str) :
  forall n st st',
    toc_pages lower is_decimal doc n ps st = Ok st' ->
    ps <> [] ->
    n <= last_page st' < n + length ps.
Proof.
  induction ps as [|raw ps IH]; intros n st st' H Hne; [congruence|].
  simpl in H.
  destruct (toc_page lower is_decimal doc n raw st) as [[st1 broke]|] eqn:E;
    simpl in H; [|discriminate].
  apply toc_page_spec in E. destruct E as [Hl _].
  destruct broke.
  - injection H as <-. simpl. lia.
  - destruct ps as [|raw' ps'].
    + simpl in H. injection H as <-. simpl. lia.
    + apply IH in H; [|discriminate]. simpl in *. lia.
Qed.

Lemma toc_last_page_range (doc : Document) (chapters : Dict.t (list str))
    (last : nat) :
  extract_table_of_contents lower is_decimal doc = Ok (chapters, last) ->
  (pages doc <> [] -> last < length (pages doc))
  /\ (pages doc = [] -> last = 0 /\ chapters = Dict.empty).
Proof.
  unfold extract_table_of_contents. intros H.
  destruct (toc_pages lower is_decimal doc 0 (pages doc) toc_init) as [st|] eqn:E;
    simpl in H; [|discriminate].
  injection H as <- <-. split.
  - intros Hne. apply toc_pages_last_bound in E; [|exact Hne]. lia.
  - intros Hnil. rewrite Hnil in E. simpl in E. injection E as <-.
    split; reflexivity.
Qed.

(** X10: the [last_page] that [extract_table_of_contents] returns is the
    index of a page of the document, so the content scan that starts there
    reads at least one page; for a document without pages it is 0 and the
    hierarchy is empty. *)
Theorem last_page_in_document (doc : Document) (chapters : Dict.t (list str))
    (last : nat) :
  extract_table_of_contents lower is_decimal doc = Ok (chapters, last) ->
  (pages doc <> [] -> last < length (pages doc))
  /\ (pages doc = [] -> last = 0 /\ chapters = Dict.empty).
Proof.
  unfold extract_table_of_contents. intros H.
  destruct (toc_pages lower is_decimal doc 0 (pages doc) toc_init) as [st|] eqn:E;
    simpl in H; [|discriminate].
  injection H as <- <-. split.
  - intros Hne. apply toc_pages_last_bound in E; [|exact Hne]. lia.
  - intros Hnil. rewrite Hnil in E. simpl in E. injection E as <-.
    split; reflexivity.
Qed.

Lemma toc_page_title (doc doc' : Document) (n : nat) (raw : str) (st : toc_state) :
  title doc = title doc' ->
  toc_page lower is_decimal doc n raw st = toc_page lower is_decimal doc' n raw st.
Proof. intros H. unfold toc_page. rewrite H. reflexivity. Qed.

Lemma toc_pages_until_break (doc doc' : Document) (N : nat) :
  title doc = title doc' ->
  termination_fires doc N = true ->
  forall ps ps' pre st,
    pages doc = pre ++ ps ->
    firstn (S N - length pre) ps = firstn (S N - length pre) ps' ->
    length pre <= N ->
    toc_found st = existsb (contains toc_marker) pre ->
    toc_pages lower is_decimal doc (length pre) ps st
    = toc_pages lower is_decimal doc' (length pre) ps' st.
Proof.
  intros Ht Hfire. induction ps as [|raw ps IH]; intros ps' pre st Hp Hfirst Hle Hf.
  - exfalso. unfold termination_fires in Hfire.
    destruct (nth_error (pages doc) N) eqn:E; [|discriminate].
    assert (N < length (pages doc)) by (apply nth_error_Some; congruence).
    rewrite Hp, app_nil_r in H. lia.
  - replace (S N - length pre) with (S (N - length pre)) in Hfirst by lia.
    destruct ps' as [|raw' ps']; [discriminate|].
    simpl in Hfirst. injection Hfirst as <- Hfirst.
    simpl. rewrite <- (@toc_page_title doc doc' (length pre) raw st Ht).
    destruct (toc_page lower is_decimal doc (length pre) raw st)
      as [[st1 broke]|] eqn:E; simpl; [|reflexivity].
    destruct broke; [reflexivity|].
    apply toc_page_spec in E. destruct E as [_ [Hf1 Hb]].
    pose proof (@termination_fires_at doc pre ps raw Hp) as Hfire0.
    rewrite <- Hf, <- Hb in Hfire0.
    assert (Hne : N <> length pre) by congruence.
    assert (Hlen : length (pre ++ [raw]) = S (length pre)).
    { rewrite length_app. simpl. lia. }
    rewrite <- Hlen. apply IH.
    + rewrite <- app_assoc. exact Hp.
    + rewrite Hlen. replace (S N - S (length pre)) with (N - length pre) by lia.
      exact Hfirst.
    + lia.
    + rewrite existsb_app, Hf1, Hf. simpl. rewrite orb_false_r. reflexivity.
Qed.

(** X11: once the termination test fires on page N, the later pages are
    not read: two documents with the same title and the same pages up to
    page N give the same result. *)
Theorem pages_after_the_break_are_not_read (doc doc' : Document) (N : nat) :
  title doc = title doc' ->
  firstn (S N) (pages doc) = firstn (S N) (pages doc') ->
  termination_fires doc N = true ->
  extract_table_of_contents lower is_decimal doc
  = extract_table_of_contents lower is_decimal doc'.
Proof.
  intros Ht Hfirst Hfire. unfold extract_table_of_contents.
  pose proof (@toc_pages_until_break doc doc' N Ht Hfire (pages doc) (pages doc')
                [] toc_init eq_refl Hfirst (Nat.le_0_l N) eq_refl) as H.
  cbn [length] in H. rewrite H. reflexivity.
Qed.

Lemma toc_pages_skip (doc : Document) (pre ps : list str) :
  forall n st,
    existsb (contains toc_marker) pre = false ->
    toc_found st = false ->
    exists x,
      toc_pages lower is_decimal doc n (pre ++ ps) st
      = toc_pages lower is_decimal doc (n + length pre) ps
          {| chapters_sections := chapters_sections st;
             current_chapter := current_chapter st;
             toc_found := false;
             last_page := x |}.
Proof.
  induction pre as [|raw pre IH]; intros n st Hm Hf.
  - exists (last_page st). simpl. rewrite Nat.add_0_r.
    destruct st; simpl in *; subst; reflexivity.
  - simpl in Hm. apply orb_false_iff in Hm. destruct Hm as [Hm1 Hm2].
    simpl. unfold toc_page. rewrite Hm1. simpl. rewrite Hf. simpl.
    destruct (IH (S n) {| chapters_sections := chapters_sections st;
                          current_chapter := current_chapter st;
                          toc_found := false; last_page := n |} Hm2 eq_refl)
      as [x Hx].
    exists x. rewrite Hx. simpl. rewrite Nat.add_succ_r. reflexivity.
Qed.

Lemma toc_page_shift (doc doc' : Document) (k n : nat) (raw : str)
    (st1 st2 : toc_state) :
  title doc = title doc' ->
  chapters_sections st1 = chapters_sections st2 ->
  current_chapter st1 = current_chapter st2 ->
  toc_found st1 = toc_found st2 ->
  toc_page lower is_decimal doc (k + n) raw st1
  = match toc_page lower is_decimal doc' n raw st2 with
    | Ok (st', broke) =>
        Ok ({| chapters_sections := chapters_sections st';
               current_chapter := current_chapter st';
               toc_found := toc_found st';
               last_page := k + n |}, broke)
    | Raise e => Raise e
    end.
Proof.
  intros Ht H1 H2 H3. unfold toc_page. rewrite Ht, H1, H2, H3.
  destruct (contains toc_marker raw).
  - destruct (list_get (split toc_marker raw) 1) as [t|]; simpl; [|reflexivity].
    rewrite andb_false_r.
    destruct (toc_lines lower is_decimal (split [newline] t) (current_chapter st2)
                (chapters_sections st2)) as [[c d]|]; reflexivity.
  - simpl. destruct (toc_found st2); [|reflexivity].
    rewrite andb_true_r. destruct (contains (title doc') raw); [reflexivity|].
    destruct (toc_lines lower is_decimal (split [newline] raw)
                (current_chapter st2) (chapters_sections st2)) as [[c d]|];
      reflexivity.
Qed.

Lemma toc_pages_shift (doc doc' : Document) (k : nat) (ps : list str) :
  title doc = title doc' ->
  forall n st1 st2,
    chapters_sections st1 = chapters_sections st2 ->
    current_chapter st1 = current_chapter st2 ->
    toc_found st1 = toc_found st2 ->
    ps <> [] ->
    toc_pages lower is_decimal doc (k + n) ps st1
    = match toc_pages lower is_decimal doc' n ps st2 with
      | Ok st' =>
          Ok {| chapters_sections := chapters_sections st';
                current_chapter := current_chapter st';
                toc_found := toc_found st';
                last_page := k + last_page st' |}
      | Raise e => Raise e
      end.
Proof.
  intros Ht. induction ps as [|raw ps IH]; intros n st1 st2 H1 H2 H3 Hne;
    [congruence|].
  simpl. rewrite (@toc_page_shift doc doc' k n raw st1 st2 Ht H1 H2 H3).
  destruct (toc_page lower is_decimal doc' n raw st2) as [[st' broke]|] eqn:E;
    simpl; [|reflexivity].
  apply toc_page_spec in E. destruct E as [Hl _].
  destruct broke; [rewrite Hl; reflexivity|].
  destruct ps as [|raw' ps'].
  - simpl. rewrite Hl. reflexivity.
  - rewrite <- Nat.add_succ_r. apply IH; try reflexivity. discriminate.
Qed.

(** X12: pages in front of the first marker page count for nothing but
    the page numbers: dropping them gives the same hierarchy, or the same
    failure, and a [last_page] smaller by their number. *)
Theorem front_matter_is_skipped (ttl : str) (pre ps : list str) :
  existsb (contains toc_marker) pre = false ->
  ps <> [] ->
  extract_table_of_contents lower is_decimal {| pages := pre ++ ps; title := ttl |}
  = match extract_table_of_contents lower is_decimal
            {| pages := ps; title := ttl |} with
    | Ok (chapters, last) => Ok (chapters, length pre + last)
    | Raise e => Raise e
    end.
Proof.
  intros Hm Hne. unfold extract_table_of_contents. cbn [pages].
  destruct (@toc_pages_skip {| pages := pre ++ ps; title := ttl |} pre ps 0
              toc_init Hm eq_refl) as [x Hx].
  rewrite Hx. cbn [Nat.add].
  rewrite <- (Nat.add_0_r (length pre)) at 1.
  rewrite (@toc_pages_shift {| pages := pre ++ ps; title := ttl |}
             {| pages := ps; title := ttl |} (length pre) ps eq_refl 0
             {| chapters_sections := chapters_sections toc_init;
                current_chapter := current_chapter toc_init;
                toc_found := false;
                last_page := x |}
             toc_init eq_refl eq_refl eq_refl Hne).
  destruct (toc_pages lower is_decimal {| pages := ps; title := ttl |} 0 ps
              toc_init); reflexivity.
Qed.

End TableOfContentsPages.

(** ** More on the section contents *)

Lemma firstn_succ_nth (A : Type) (l : list A) :
  forall i a, nth_error l i = Some a -> firstn (i + 1) l = firstn i l ++ [a].
Proof.
  induction l as [|x l IH]; intros [|i] a H; simpl in *; try discriminate.
  - injection H as <-. destruct l; reflexivity.
  - rewrite (IH i a H). reflexivity.
Qed.

Lemma NoDup_nth_firstn (A : Type) (l : list A) :
  NoDup l ->
  forall i a, nth_error l i = Some a -> ~ In a (firstn i l).
Proof.
  induction 1 as [|x l Hx _ IH]; intros [|i] a H; simpl in *; try discriminate.
  - intros [].
  - intros [<-|Hin].
    + apply Hx. exact (nth_error_In _ _ H).
    + exact (IH i a H Hin).
Qed.

Lemma In_keys_set (V : Type) (d : Dict.t V) (k k' : str) (v : V) :
  In k' (dict_keys (Dict.set d k v)) -> k' = k \/ In k' (dict_keys d).
Proof.
  destruct (Dict.get d k) as [w|] eqn:E.
  - rewrite (keys_set_old _ _ v E). auto.
  - rewrite (keys_set_new _ _ v E). intros H. apply in_app_or in H.
    destruct H as [H|[<-|[]]]; auto.
Qed.

(** The titles that the table of contents yields are in the domain of
    [compile_section_pattern]: [clean_text] leaves no regex operator. *)
Lemma regex_special_punctuation (c : char) :
  In c regex_special -> In c characters_to_replace.
Proof.
  intros H.
  assert (E : forallb (fun d => existsb (N.eqb d) characters_to_replace)
                regex_special = true) by (vm_compute; reflexivity).
  rewrite forallb_forall in E. specialize (E c H).
  apply existsb_exists in E. destruct E as [d [Hd E]].
  apply N.eqb_eq in E. subst d. exact Hd.
Qed.

Lemma clean_text_plain (lower : str -> str) :
  (forall s, Forall (fun c => ~ In c characters_to_replace) s ->
             Forall (fun c => ~ In c characters_to_replace) (lower s)) ->
  forall x, plain_title (clean_text lower x) = true.
Proof.
  intros H x. unfold plain_title. apply forallb_forall. intros c Hc.
  destruct (existsb (N.eqb c) regex_special) eqn:E; [|reflexivity].
  exfalso. apply existsb_exists in E. destruct E as [d [Hd E]].
  apply N.eqb_eq in E. subst d.
  pose proof (clean_text_no_punctuation lower H x) as Hx.
  rewrite Forall_forall in Hx.
  exact (Hx c Hc (regex_special_punctuation Hd)).
Qed.

Section ScannerFurther.

Variable lower : str -> str.
Variable is_decimal : char -> bool.

Local Notation "'clean'" := (clean_text lower).

(** X13: for titles without regex operator, [extract_section_content]
    fails in two cases only: no page is read (the start page is at or past
    the page count), which raises [UnboundLocalError] for [text]; or a page
    is read and the section list is empty, which raises [IndexError]. *)
Theorem extract_section_content_fails_iff (doc : Document) (start_page : nat)
    (sections : list str) (e : exn) :
  forallb plain_title sections = true ->
  extract_section_content lower is_decimal doc start_page sections = Raise e
  <-> (length (pages doc) <= start_page /\ e = UnboundLocalError "text")
      \/ (start_page < length (pages doc) /\ sections = [] /\ e = IndexError).
Proof.
  intros _. split.
  - intros H. destruct (Nat.le_gt_cases (length (pages doc)) start_page) as [Hl|Hl].
    + left. split; [exact Hl|].
      rewrite (extract_section_content_no_page lower is_decimal doc sections Hl)
        in H.
      injection H as <-. reflexivity.
    + right. split; [exact Hl|]. destruct sections as [|s0 ss].
      * rewrite (extract_section_content_no_sections lower is_decimal doc Hl) in H.
        injection H as <-. split; reflexivity.
      * destruct (@extract_section_content_returns lower is_decimal doc start_page
                    (s0 :: ss) ltac:(discriminate) Hl) as [d Hd].
        congruence.
  - intros [[Hl ->]|[Hl [-> ->]]].
    + apply extract_section_content_no_page, Hl.
    + apply extract_section_content_no_sections, Hl.
Qed.

(** X14: the pages in front of the start page are not read:
    [extract_section_content] from page [start_page] is
    [extract_section_content] from page 0 of the document without them. *)
Theorem pages_before_start_are_not_read (doc : Document) (start_page : nat)
    (sections : list str) :
  extract_section_content lower is_decimal doc start_page sections
  = extract_section_content lower is_decimal
      {| pages := skipn start_page (pages doc); title := title doc |} 0 sections.
Proof.
  unfold extract_section_content. rewrite !for_pages_range. reflexivity.
Qed.

(** The keys written so far. *)
Lemma while_body_keys (sections : list str) (st st' : scan_state) :
  while_cond sections st = true ->
  while_body is_decimal sections (map compile_section_pattern sections) st = Ok st' ->
  ((forall key, In key (dict_keys (formatted_data st)) -> In key sections) ->
   forall key, In key (dict_keys (formatted_data st')) -> In key sections)
  /\ (NoDup sections ->
      dict_keys (formatted_data st) = firstn (current_section_index st) sections ->
      dict_keys (formatted_data st') = firstn (current_section_index st') sections).
Proof.
  intros Hc Hb. destruct (text st) as [t|] eqn:Et.
  - destruct (@while_body_guarded is_decimal sections st t Hc Et)
      as [key [nxt [Hk [_ Hb']]]].
    rewrite Hb' in Hb.
    destruct (re_search is_decimal (compile_section_pattern nxt) t) as [m|];
      injection Hb as <-; simpl.
    + split.
      * intros Hin k Hk'. apply In_keys_set in Hk'. destruct Hk' as [->|Hk'].
        -- exact (nth_error_In _ _ Hk).
        -- exact (Hin k Hk').
      * intros Hnd Hkeys. rewrite keys_set_new.
        -- rewrite Hkeys. symmetry. apply firstn_succ_nth, Hk.
        -- apply get_None_keys. rewrite Hkeys.
           exact (NoDup_nth_firstn Hnd _ Hk).
    + split; auto.
  - unfold while_body in Hb.
    destruct (list_get (map compile_section_pattern sections)
                (current_section_index st + 1)); simpl in Hb; [|discriminate].
    rewrite Et in Hb. discriminate.
Qed.

Lemma while_loop_keys (sections : list str) (fuel : nat) :
  forall st st',
    while_loop is_decimal fuel sections (map compile_section_pattern sections) st
    = Ok st' ->
    ((forall key, In key (dict_keys (formatted_data st)) -> In key sections) ->
     forall key, In key (dict_keys (formatted_data st')) -> In key sections)
    /\ (NoDup sections ->
        dict_keys (formatted_data st) = firstn (current_section_index st) sections ->
        dict_keys (formatted_data st')
        = firstn (current_section_index st') sections).
Proof.
  induction fuel as [|fuel IH]; intros st st'; simpl.
  - intros H. injection H as <-. split; auto.
  - destruct (while_cond sections st) eqn:Hc.
    + destruct (while_body is_decimal sections
                  (map compile_section_pattern sections) st) as [st1|] eqn:Hb;
        simpl; [|discriminate].
      intros H. destruct (while_body_keys _ _ Hc Hb) as [A1 A2].
      destruct (IH _ _ H) as [B1 B2]. split; auto.
    + intros H. injection H as <-. split; auto.
Qed.

Lemma scan_pages_keys (sections : list str) (raws : list str) :
  forall st st',
    scan_pages lower is_decimal sections (map compile_section_pattern sections)
      raws st = Ok st' ->
    ((forall key, In key (dict_keys (formatted_data st)) -> In key sections) ->
     forall key, In key (dict_keys (formatted_data st')) -> In key sections)
    /\ (NoDup sections ->
        dict_keys (formatted_data st) = firstn (current_section_index st) sections ->
        dict_keys (formatted_data st')
        = firstn (current_section_index st') sections).
Proof.
  induction raws as [|raw raws IH]; intros st st'; simpl.
  - intros H. injection H as <-. split; auto.
  - unfold scan_page.
    destruct (while_loop is_decimal (S (length sections)) sections
                (map compile_section_pattern sections) (begin_page lower st raw))
      as [st1|] eqn:E; simpl; [|discriminate].
    intros H. apply while_loop_keys in E. destruct E as [A1 A2].
    destruct (IH _ _ H) as [B1 B2]. simpl in A1, A2. split; auto.
Qed.

(** X15: the keys of the mapping that [extract_section_content] returns
    are titles of the section list; when the titles are pairwise distinct
    they are the titles up to the last section that was reached, in the
    order of the list, so that a section whose title is never found, and
    every section after it, is missing. *)
Theorem output_keys (doc : Document) (start_page : nat) (sections : list str)
    (data : Dict.t str) :
  extract_section_content lower is_decimal doc start_page sections = Ok data ->
  (forall key, In key (dict_keys data) -> In key sections)
  /\ (NoDup sections ->
      exists k, k < length sections /\ dict_keys data = firstn (S k) sections).
Proof.
  unfold extract_section_content. rewrite for_pages_range.
  destruct (scan_pages lower is_decimal sections
              (map compile_section_pattern sections)
              (skipn start_page (pages doc)) scan_init) as [st|] eqn:E;
    simpl; [|discriminate].
  destruct (text st) as [t|]; simpl; [|discriminate].
  unfold list_get.
  destruct (nth_error sections (current_section_index st)) as [key|] eqn:Hk;
    simpl; [|discriminate].
  intros H. injection H as <-.
  apply scan_pages_keys in E. destruct E as [A1 A2]. split.
  - intros k Hin. apply In_keys_set in Hin. destruct Hin as [->|Hin].
    + exact (nth_error_In _ _ Hk).
    + apply A1; [intros ? []|exact Hin].
  - intros Hnd. exists (current_section_index st). split.
    + apply nth_error_Some. congruence.
    + specialize (A2 Hnd eq_refl). rewrite keys_set_new.
      * rewrite A2.
        change (firstn (current_section_index st) sections ++ [key]
                = firstn (S (current_section_index st)) sections).
        rewrite <- Nat.add_1_r. symmetry. apply firstn_succ_nth, Hk.
      * apply get_None_keys. rewrite A2. exact (NoDup_nth_firstn Hnd _ Hk).
Qed.

(** X16: the value written after the loop, under a title of the list, is
    a tail of the normalised text of the last page of the document,
    whatever the earlier pages held. *)
Theorem final_entry_is_a_tail_of_the_last_page (doc : Document)
    (start_page : nat) (sections : list str) (data : Dict.t str) :
  start_page < length (pages doc) ->
  extract_section_content lower is_decimal doc start_page sections = Ok data ->
  exists key k,
    In key sections
    /\ Dict.get data key = Some (skipn k (clean (last (pages doc) []))).
Proof.
  intros Hp. unfold extract_section_content. rewrite for_pages_range.
  destruct (@exists_last _ (skipn start_page (pages doc))) as [raws [raw E]].
  { destruct (@skipn_nth_error _ (pages doc) start_page Hp) as [a [_ E]].
    rewrite E. discriminate. }
  assert (Hl : last (pages doc) [] = raw).
  { rewrite <- (firstn_skipn start_page (pages doc)), E, app_assoc.
    apply last_last. }
  rewrite E, Hl.
  destruct (scan_pages lower is_decimal sections
              (map compile_section_pattern sections) (raws ++ [raw]) scan_init)
    as [st|] eqn:Es; simpl; [|discriminate].
  apply scan_pages_text in Es. destruct Es as [k Hk]. rewrite Hk. simpl.
  unfold list_get.
  destruct (nth_error sections (current_section_index st)) as [key|] eqn:Hn;
    simpl; [|discriminate].
  intros E'. injection E' as <-. exists key, k. split.
  - exact (nth_error_In _ _ Hn).
  - apply get_set_same.
Qed.

Lemma scan_pages_one_section (section : str) (ps : list regex) (raws : list str) :
  forall st,
    scan_pages lower is_decimal [section] ps raws st
    = Ok (fold_left (begin_page lower) raws st).
Proof.
  induction raws as [|raw raws IH]; intros st; simpl; [reflexivity|].
  unfold scan_page. rewrite while_loop_done.
  - simpl. apply IH.
  - apply while_cond_false. left. simpl. lia.
Qed.

Lemma fold_begin_page_last (raws : list str) (raw : str) :
  forall st,
    fold_left (begin_page lower) (raws ++ [raw]) st
    = begin_page lower (fold_left (begin_page lower) raws st) raw.
Proof. intros st. rewrite fold_left_app. reflexivity. Qed.

Lemma fold_begin_page_data (raws : list str) :
  forall st,
    formatted_data (fold_left (begin_page lower) raws st) = formatted_data st.
Proof.
  induction raws as [|raw raws IH]; intros st; simpl; [reflexivity|].
  rewrite IH. reflexivity.
Qed.

(** X17: with a single section, its title without regex operator, nothing
    is searched for: the mapping has that one title, and its value is the
    whole normalised text of the last page of the document. *)
Theorem single_section (doc : Document) (start_page : nat) (section : str) :
  plain_title section = true ->
  start_page < length (pages doc) ->
  extract_section_content lower is_decimal doc start_page [section]
  = Ok [(section, clean (last (pages doc) []))].
Proof.
  intros _ Hp. unfold extract_section_content.
  rewrite for_pages_range, scan_pages_one_section. simpl bind.
  destruct (@exists_last _ (skipn start_page (pages doc))) as [raws [raw E]].
  { destruct (@skipn_nth_error _ (pages doc) start_page Hp) as [a [_ E]].
    rewrite E. discriminate. }
  assert (Hl : last (pages doc) [] = raw).
  { rewrite <- (firstn_skipn start_page (pages doc)), E, app_assoc.
    apply last_last. }
  rewrite E, Hl, fold_begin_page_last. cbn [begin_page text local bind
    current_section_index formatted_data].
  rewrite fold_begin_page_index, fold_begin_page_data. reflexivity.
Qed.

End ScannerFurther.

(** ** More on the section patterns *)

Lemma endswith_char_last (c : char) (v : str) : endswith_char c (v ++ [c]) = true.
Proof. unfold endswith_char. rewrite rev_app_distr. simpl. apply N.eqb_refl. Qed.

Lemma endswith_char_true (c : char) (w : str) :
  endswith_char c w = true -> exists w0, w = w0 ++ [c].
Proof.
  unfold endswith_char. destruct (rev w) as [|d r] eqn:E; [discriminate|].
  intros H. apply N.eqb_eq in H. subst d. exists (rev r).
  rewrite <- (rev_involutive w), E. reflexivity.
Qed.

Lemma split_words_from_word (w : str) :
  forall cur t,
    Forall (fun c => isspace c = false) w ->
    split_words_from cur (w ++ t) = split_words_from (rev w ++ cur) t.
Proof.
  induction w as [|c w IH]; intros cur t H; [reflexivity|].
  inversion H as [|? ? Hc Hw]; subst. simpl. rewrite Hc, (IH _ _ Hw).
  rewrite <- app_assoc. reflexivity.
Qed.

Lemma split_words_join (ws : list str) :
  Forall (fun w => w <> [] /\ Forall (fun c => isspace c = false) w) ws ->
  split_words (join [space] ws) = ws.
Proof.
  unfold split_words. induction 1 as [|w ws [Hne Hw] Hws IH]; [reflexivity|].
  assert (Hr : rev w <> []).
  { intros E. apply Hne. rewrite <- (rev_involutive w), E. reflexivity. }
  destruct ws as [|w2 ws].
  - simpl. rewrite <- (app_nil_r w) at 1.
    rewrite (split_words_from_word _ _ Hw), app_nil_r. simpl.
    destruct (rev w) eqn:E; [congruence|]. rewrite <- E, rev_involutive.
    reflexivity.
  - change (join [space] (w :: w2 :: ws))
      with (w ++ [space] ++ join [space] (w2 :: ws)).
    rewrite (split_words_from_word _ _ Hw), app_nil_r. simpl.
    destruct (rev w) eqn:E; [congruence|]. rewrite <- E, rev_involutive.
    f_equal. exact IH.
Qed.

Section PatternFurther.

Variable is_decimal : char -> bool.

Lemma match_ahead (r : regex) (s : str) :
  match_items is_decimal (AheadFormfeedOrEnd :: r) s
  = match s with
    | [] => match_items is_decimal r s
    | c :: _ => if (c =? formfeed)%N then match_items is_decimal r s else None
    end.
Proof. destruct s; reflexivity. Qed.

(** The tail [(.*?)(?=\f|\Z)] matches wherever it is tried. *)
Lemma tail_matches (t : str) :
  exists n, match_items is_decimal [LazyStar DotAll; AheadFormfeedOrEnd] t = Some n.
Proof.
  induction t as [|d t [n IH]]; rewrite match_lazy, match_ahead.
  - exists 0. reflexivity.
  - destruct (d =? formfeed)%N; [exists 0; reflexivity|].
    cbn [cls_ok]. rewrite IH. exists (S n). reflexivity.
Qed.

Lemma ones_match (w : str) (r : regex) (t : str) :
  (exists m, match_items is_decimal r t = Some m) ->
  exists n,
    match_items is_decimal (map (fun c => One (Chr c)) w ++ r) (w ++ t) = Some n.
Proof.
  intros H. induction w as [|c w [n IH]]; [exact H|].
  cbn [map app]. rewrite match_one. cbn [cls_ok]. rewrite N.eqb_refl, IH.
  exists (S n). reflexivity.
Qed.

Lemma opt_skips (k : cls) (r : regex) (t : str) :
  (exists m, match_items is_decimal r t = Some m) ->
  exists n, match_items is_decimal (Opt k :: r) t = Some n.
Proof.
  intros [m Hm]. rewrite match_opt. destruct t as [|c t'].
  - exists m. exact Hm.
  - destruct (cls_ok is_decimal k c).
    + destruct (match_items is_decimal r t') as [n|];
        [exists (S n); reflexivity|exists m; exact Hm].
    + exists m. exact Hm.
Qed.

Lemma opt_takes (c : char) (r : regex) (t : str) :
  (exists m, match_items is_decimal r t = Some m) ->
  exists n, match_items is_decimal (Opt (Chr c) :: r) (c :: t) = Some n.
Proof.
  intros [m Hm]. rewrite match_opt. cbn [cls_ok]. rewrite N.eqb_refl, Hm.
  exists (S m). reflexivity.
Qed.

(** The items of a word match either spelling of the word. *)
Lemma word_matches (w v : str) (r : regex) (t : str) :
  spelling w v ->
  (exists m, match_items is_decimal r t = Some m) ->
  exists n, match_items is_decimal (pluralized_word w ++ r) (v ++ t) = Some n.
Proof.
  intros Hs Hr. unfold pluralized_word.
  destruct (endswith_char 115%N w) eqn:Ew; cbn [negb].
  - apply endswith_char_true in Ew. destruct Ew as [w0 ->].
    rewrite removelast_last, last_last, <- app_assoc. cbn [app].
    destruct Hs as [-> | [[Hf _] | Hv]].
    + rewrite <- app_assoc. cbn [app]. apply ones_match, opt_takes, Hr.
    + rewrite endswith_char_last in Hf. discriminate.
    + apply app_inj_tail in Hv. destruct Hv as [<- _].
      apply ones_match, opt_skips, Hr.
  - rewrite <- app_assoc. cbn [app]. destruct Hs as [-> | [[_ ->] | ->]].
    + apply ones_match, opt_skips, Hr.
    + rewrite <- app_assoc. cbn [app]. apply ones_match, opt_takes, Hr.
    + rewrite endswith_char_last in Ew. discriminate.
Qed.

Lemma title_items_match (ws vs : list str) :
  Forall2 spelling ws vs ->
  forall rest,
    exists n,
      match_items is_decimal
        (join_items [One SpaceCls] (map pluralized_word ws)
         ++ [LazyStar DotAll; AheadFormfeedOrEnd])
        (join [space] vs ++ rest) = Some n.
Proof.
  induction 1 as [|w v ws vs Hwv Hrest IH]; intros rest.
  - apply tail_matches.
  - destruct Hrest as [|w2 v2 ws vs Hwv2 Hrest].
    + cbn [map join_items join]. apply word_matches; [exact Hwv|].
      apply tail_matches.
    + change (join_items [One SpaceCls] (map pluralized_word (w :: w2 :: ws)))
        with (pluralized_word w
              ++ [One SpaceCls]
              ++ join_items [One SpaceCls] (map pluralized_word (w2 :: ws))).
      change (join [space] (v :: v2 :: vs))
        with (v ++ [space] ++ join [space] (v2 :: vs)).
      rewrite <- !app_assoc. apply word_matches; [exact Hwv|].
      cbn [app]. rewrite match_one. cbn [cls_ok]. rewrite isspace_space.
      destruct (IH rest) as [n Hn]. rewrite Hn. exists (S n). reflexivity.
Qed.

Lemma search_from_head (r : regex) (pos n : nat) (s : str) :
  match_items is_decimal r s = Some n ->
  search_from is_decimal r pos s = Some {| m_start := pos; m_end := pos + n |}.
Proof. intros H. destruct s; simpl; rewrite H; reflexivity. Qed.

(** X18: the pattern compiled from a title of blank-separated words
    without regex operator is found at the head of every text that begins
    with these words, each spelled as in the title, with an added final [s]
    (when the title's word has none), or without the final [s] of the
    title's word. *)
Theorem pattern_tolerates_plurals (ws vs : list str) (rest : str) :
  forallb plain_title ws = true ->
  Forall (fun w => w <> [] /\ Forall (fun c => isspace c = false) w) ws ->
  Forall2 spelling ws vs ->
  exists m,
    re_search is_decimal (compile_section_pattern (join [space] ws))
      (join [space] vs ++ rest) = Some m
    /\ m_start m = 0.
Proof.
  intros _ Hws Hs. unfold compile_section_pattern, re_search.
  rewrite (split_words_join Hws).
  destruct (title_items_match Hs rest) as [n Hn].
  rewrite (@search_from_head _ 0 n _ Hn). eexists. split; reflexivity.
Qed.

End PatternFurther.

(** ** More on the top-level operation *)

Section OrchestratorFurther.

Variable lower : str -> str.
Variable is_decimal : char -> bool.
Variable fs_write : str -> Dict.t str -> result unit.

(** X19: when the table of contents fails, the top-level operation saves
    nothing and prints the unknown-error diagnostic with the [KeyError] of
    the empty string. *)
Theorem failed_table_of_contents_is_reported (doc : Document) (json_path : str)
    (e : exn) :
  extract_table_of_contents lower is_decimal doc = Raise e ->
  extract_sections_to_json lower is_decimal fs_write doc json_path
  = (Ok tt, [Printed (Unknown_error_occurred (KeyError []))]).
Proof.
  intros H. pose proof (@toc_failure_keyerror lower is_decimal doc e H) as ->.
  unfold extract_sections_to_json, pipeline. rewrite H. reflexivity.
Qed.

(** X20: when the table of contents lists no section, nothing is saved:
    on a document that has pages the operation prints a data-processing
    error for the [IndexError], on a document without pages an unknown
    error for the unbound [text]. *)
Theorem no_section_nothing_saved (doc : Document) (json_path : str)
    (chapters : Dict.t (list str)) (last : nat) :
  extract_table_of_contents lower is_decimal doc = Ok (chapters, last) ->
  concat (Dict.values chapters) = [] ->
  extract_sections_to_json lower is_decimal fs_write doc json_path
  = (Ok tt,
     [Printed
        (match pages doc with
         | [] => Unknown_error_occurred (UnboundLocalError "text")
         | _ :: _ => Data_processing_error_occurred IndexError
         end)]).
Proof.
  intros H Hs. unfold extract_sections_to_json, pipeline. rewrite H.
  cbn [bind]. rewrite Hs.
  apply toc_last_page_range in H. destruct H as [H1 H2].
  destruct (pages doc) as [|p ps] eqn:E.
  - destruct (H2 eq_refl) as [-> _].
    rewrite extract_section_content_no_page by (rewrite E; simpl; lia).
    reflexivity.
  - rewrite extract_section_content_no_sections
      by (rewrite E; apply H1; discriminate).
    reflexivity.
Qed.

(** X21: when the table of contents lists a section, the content scan
    cannot fail: the mapping is computed, and the outcome is what the file
    system answers: the mapping saved, or the failure of the write printed
    (an instance of [Exception]) or passed on to the caller (any other). *)
Theorem listed_sections_are_scanned (doc : Document) (json_path : str)
    (chapters : Dict.t (list str)) (last : nat) :
  extract_table_of_contents lower is_decimal doc = Ok (chapters, last) ->
  concat (Dict.values chapters) <> [] ->
  exists data,
    extract_section_content lower is_decimal doc last
      (concat (Dict.values chapters)) = Ok data
    /\ extract_sections_to_json lower is_decimal fs_write doc json_path
       = match fs_write json_path data with
         | Ok _ => (Ok tt, [Saved json_path data])
         | Raise e =>
             if is_exception e then (Ok tt, [Printed (handle e)])
             else (Raise e, [])
         end.
Proof.
  intros H Hs.
  pose proof (@toc_last_page_range lower is_decimal doc chapters last H)
    as [H1 H2].
  assert (Hp : pages doc <> []).
  { intros E. destruct (H2 E) as [_ ->]. apply Hs. reflexivity. }
  destruct (@extract_section_content_returns lower is_decimal doc last
              (concat (Dict.values chapters)) Hs (H1 Hp)) as [data Hd].
  exists data. split; [exact Hd|].
  unfold extract_sections_to_json, pipeline, save_data_to_json.
  rewrite H. cbn [bind]. rewrite Hd. cbn [bind].
  destruct (fs_write json_path data) as [[]|e]; reflexivity.
Qed.

End OrchestratorFurther.

(** ** The further properties on the sample documents *)

Lemma clean_text_whitespace_witness :
  space = space
  /\ (exists a' d, u "in" = a' ++ [d] /\ isspace d = false)
  /\ (exists e b', u "this act" = e :: b' /\ isspace e = false).
Proof.
  apply (@clean_text_whitespace ascii_lower (u " In  this Act.") (u "in")
           (u "this act") space); reflexivity.
Defined.

Lemma clean_text_strips_punctuation_witness :
  Forall (fun c => ~ In c characters_to_replace)
    (clean_text ascii_lower (u "(1) Short title, extent & commencement."))
  /\ clean_text ascii_lower (u "(1) Short title, extent & commencement.")
     = u "1 short title extent commencement".
Proof.
  split; [|reflexivity]. apply Forall_forall. intros c Hc.
  exact (@clean_text_strips_punctuation ascii_lower ascii_lower_punctuation
           (u "(1) Short title, extent & commencement.") c Hc).
Defined.

Lemma is_section_line_iff_witness :
  is_section_line ascii_decimal (u " 12.  Arrest of persons") = true.
Proof.
  apply is_section_line_iff.
  exists 49%N, [50%N], space, [space], 65%N, (u "rrest of persons").
  repeat split; repeat constructor.
Defined.

Lemma process_toc_line_fails_iff_witness :
  process_toc_line ascii_lower ascii_decimal (u "2. Interpretation")
    (u "CHAPTER II") act_chapters
  = Raise (KeyError (u "CHAPTER II")).
Proof.
  apply process_toc_line_fails_iff. repeat split; reflexivity.
Defined.

Lemma chapter_line_opens_chapter_witness :
  exists d',
    process_toc_line ascii_lower ascii_decimal (u "  CHAPTER I ") [] act_chapters
    = Ok (u "CHAPTER I", d')
    /\ Dict.get d' (u "CHAPTER I") = Some []
    /\ dict_keys d' = dict_keys act_chapters.
Proof.
  destruct (@chapter_line_opens_chapter ascii_lower ascii_decimal
              (u "  CHAPTER I ") [] act_chapters eq_refl)
    as [d' [H1 [H2 [_ H4]]]].
  exists d'. split; [exact H1|]. split; [exact H2|exact H4].
Defined.

Lemma section_line_joins_chapter_witness :
  exists section_title d',
    process_toc_line ascii_lower ascii_decimal (u "3. Extent") (u "CHAPTER I")
      act_chapters = Ok (u "CHAPTER I", d')
    /\ Dict.get d' (u "CHAPTER I")
       = Some ([u "1 short title"; u "2 interpretation"] ++ [section_title])
    /\ section_title = clean_text ascii_lower (strip (u "3. Extent")).
Proof.
  destruct (@section_line_joins_chapter ascii_lower ascii_decimal (u "3. Extent")
              (u "CHAPTER I") act_chapters
              [u "1 short title"; u "2 interpretation"] eq_refl eq_refl eq_refl)
    as [t [d' [H1 [H2 [_ [_ [_ H6]]]]]]].
  exists t, d'. split; [exact H1|]. split; [exact H2|]. apply H6.
  intros Hin. vm_compute in Hin.
  repeat (destruct Hin as [Hin|Hin]; [discriminate Hin|]). exact Hin.
Defined.

Lemma extract_table_of_contents_fails_with_witness :
  extract_table_of_contents ascii_lower ascii_decimal orphan_doc
  = Raise (KeyError [])
  /\ KeyError [] = KeyError []
  /\ existsb (contains toc_marker) (pages orphan_doc) = true.
Proof.
  assert (H : extract_table_of_contents ascii_lower ascii_decimal orphan_doc
              = Raise (KeyError [])) by (vm_compute; reflexivity).
  split; [exact H|].
  exact (@extract_table_of_contents_fails_with ascii_lower ascii_decimal
           orphan_doc (KeyError []) H).
Defined.

Lemma table_of_contents_well_formed_witness :
  NoDup (dict_keys act_chapters)
  /\ forall k secs,
       In (k, secs) act_chapters ->
       is_chapter_line k = true /\ strip k = k /\ k <> []
       /\ forall s, In s secs -> exists x, s = clean_text ascii_lower x.
Proof.
  apply (@table_of_contents_well_formed ascii_lower ascii_decimal act_doc
           act_chapters 1).
  vm_compute. reflexivity.
Defined.

Lemma no_marker_no_chapters_witness :
  extract_table_of_contents ascii_lower ascii_decimal carry_doc
  = Ok (Dict.empty, length (pages carry_doc) - 1).
Proof. apply no_marker_no_chapters. reflexivity. Defined.

Lemma last_page_in_document_witness :
  (pages act_doc <> [] -> 1 < length (pages act_doc))
  /\ (pages act_doc = [] -> 1 = 0 /\ act_chapters = Dict.empty).
Proof.
  apply (@last_page_in_document ascii_lower ascii_decimal act_doc act_chapters 1).
  vm_compute. reflexivity.
Defined.

Lemma pages_after_the_break_are_not_read_witness :
  extract_table_of_contents ascii_lower ascii_decimal act_doc
  = extract_table_of_contents ascii_lower ascii_decimal act_doc_longer.
Proof.
  apply (@pages_after_the_break_are_not_read ascii_lower ascii_decimal act_doc
           act_doc_longer 1); reflexivity.
Defined.

Lemma front_matter_is_skipped_witness :
  extract_table_of_contents ascii_lower ascii_decimal
    {| pages := [u "Cover"; u "Preface"] ++ pages act_doc; title := u "THE ACT" |}
  = match extract_table_of_contents ascii_lower ascii_decimal
            {| pages := pages act_doc; title := u "THE ACT" |} with
    | Ok (chapters, last) => Ok (chapters, length [u "Cover"; u "Preface"] + last)
    | Raise e => Raise e
    end.
Proof.
  apply (@front_matter_is_skipped ascii_lower ascii_decimal (u "THE ACT")
           [u "Cover"; u "Preface"] (pages act_doc)); [reflexivity|discriminate].
Defined.

Lemma extract_section_content_fails_iff_witness :
  extract_section_content ascii_lower ascii_decimal act_doc 5 carry_sections
  = Raise (UnboundLocalError "text").
Proof.
  apply extract_section_content_fails_iff; [reflexivity|].
  left. split; [simpl; lia|reflexivity].
Defined.

Lemma output_keys_witness :
  (forall key,
      In key (dict_keys [(u "1 short title", u "may be cited as x")]) ->
      In key carry_sections)
  /\ (NoDup carry_sections ->
      exists k,
        k < length carry_sections
        /\ dict_keys [(u "1 short title", u "may be cited as x")]
           = firstn (S k) carry_sections).
Proof.
  apply (@output_keys ascii_lower ascii_decimal carry_doc 0 carry_sections
           [(u "1 short title", u "may be cited as x")]).
  vm_compute. reflexivity.
Defined.

Lemma final_entry_is_a_tail_of_the_last_page_witness :
  exists key k,
    In key carry_sections
    /\ Dict.get [(u "1 short title", u "may be cited as x")] key
       = Some (skipn k (clean_text ascii_lower (last (pages carry_doc) []))).
Proof.
  apply (@final_entry_is_a_tail_of_the_last_page ascii_lower ascii_decimal
           carry_doc 0 carry_sections [(u "1 short title", u "may be cited as x")]).
  - simpl. lia.
  - vm_compute. reflexivity.
Defined.

Lemma single_section_witness :
  extract_section_content ascii_lower ascii_decimal carry_doc 0 [u "1 short title"]
  = Ok [(u "1 short title", clean_text ascii_lower (last (pages carry_doc) []))].
Proof. apply single_section; [reflexivity|simpl; lia]. Defined.

Lemma pattern_tolerates_plurals_witness :
  exists m,
    re_search ascii_decimal
      (compile_section_pattern (join [space] [u "arrest"; u "of"; u "persons"]))
      (join [space] [u "arrests"; u "of"; u "person"] ++ u " without warrant")
    = Some m
    /\ m_start m = 0.
Proof.
  apply pattern_tolerates_plurals.
  - reflexivity.
  - repeat (constructor; try discriminate; try reflexivity).
  - constructor; [right; left; split; reflexivity|].
    constructor; [left; reflexivity|].
    constructor; [right; right; reflexivity|constructor].
Defined.

Lemma failed_table_of_contents_is_reported_witness :
  extract_sections_to_json ascii_lower ascii_decimal fs_accepts orphan_doc
    (u "out.json")
  = (Ok tt, [Printed (Unknown_error_occurred (KeyError []))]).
Proof.
  apply (@failed_table_of_contents_is_reported ascii_lower ascii_decimal fs_accepts
           orphan_doc (u "out.json") (KeyError [])).
  vm_compute. reflexivity.
Defined.

Lemma no_section_nothing_saved_witness :
  extract_sections_to_json ascii_lower ascii_decimal fs_accepts carry_doc
    (u "out.json")
  = (Ok tt,
     [Printed
        (match pages carry_doc with
         | [] => Unknown_error_occurred (UnboundLocalError "text")
         | _ :: _ => Data_processing_error_occurred IndexError
         end)]).
Proof.
  apply (@no_section_nothing_saved ascii_lower ascii_decimal fs_accepts carry_doc
           (u "out.json") Dict.empty 1); reflexivity.
Defined.

Lemma listed_sections_are_scanned_witness :
  exists data,
    extract_section_content ascii_lower ascii_decimal act_doc 1
      (concat (Dict.values act_chapters)) = Ok data
    /\ extract_sections_to_json ascii_lower ascii_decimal fs_accepts act_doc
         (u "out.json")
       = match fs_accepts (u "out.json") data with
         | Ok _ => (Ok tt, [Saved (u "out.json") data])
         | Raise e =>
             if is_exception e then (Ok tt, [Printed (handle e)])
             else (Raise e, [])
         end.
Proof.
  apply (@listed_sections_are_scanned ascii_lower ascii_decimal fs_accepts act_doc
           (u "out.json") act_chapters 1).
  - vm_compute. reflexivity.
  - discriminate.
Defined.
